(** * GeoAgent HyperModal: job queue and modality pipelines

    A shallow embedding of the worker-side processors
    (worker-node/src/processors/*.ts, worker-node/src/index.ts), of the
    API-side queue manager (services/hypermodal/job-queue.ts) and of the job
    routes (routes/hypermodal/jobs.ts, sar.ts), with the properties of the
    orchestration layer stated and proved over it.

    Asynchronous functions are embedded in a state-and-exception monad: the
    state is the part of the outside world a handler writes (progress
    reports, working-storage files, uploaded objects, indexed documents,
    log lines), an exception is a rejected promise carrying the message of
    the thrown [Error].  The answers of the external collaborators (object
    store, ML service, GraphRAG, file system, Redis) are the fields of an
    environment record, so that every theorem quantifies over what the
    collaborators do. *)

From stdpp Require Import base option list strings pretty gmap sorting.
From Stdlib Require Import ZArith Lia.

Local Open Scope Z_scope.
Local Open Scope string_scope.

(** ** Settled promises *)

(** A settled [Promise<A>]: fulfilled with a value, or rejected with the
    message of the error. *)
Inductive Result (A : Type) : Type :=
  | Ok (a : A)
  | Throw (msg : string).
Arguments Ok {A} a.
Arguments Throw {A} msg.

(** The answer of a collaborator whose value the handlers do not read. *)
Inductive Settle : Type :=
  | Fulfilled
  | Rejected (msg : string).

Definition isOk {A} (r : Result A) : bool :=
  match r with Ok _ => true | Throw _ => false end.

(** ** The worker's world *)

Module Worker.

(** [job.data] as the processors destructure it.  [sourceUrl] is read by
    the lidar, spectral and thermal processors, [sourceUrls] by the SAR
    processor, which guards it against [undefined] ([None]).
    Of [options] only the two entries that decide control flow are kept
    ([options.operations] for lidar, [options.outputFormat] for the
    vegetation handler); the others are forwarded to the ML service
    unread. *)
Record JobData : Type := mkJobData {
  jobId : string;
  userId : string;
  jobType : string;
  operation : string;
  sourceUrl : string;
  sourceUrls : option (list string);
  optOperations : list string;
  optOutputFormat : option string;
}.

(** What the ML service returns, as far as the handlers branch on it: the
    base64 image payload ([ndviImage], [heatmapImage], [anomalyMap]) is
    present or not. *)
Record MLResponse : Type := mkMLResponse {
  image : bool;
}.

(** The value a processor resolves with; the [results] and [statistics]
    payloads are passed through uninterpreted and left out. *)
Record ProcessingResult : Type := mkProcessingResult {
  r_jobId : string;
  r_operation : string;
  r_outputPaths : list string;
}.

Record World : Type := mkWorld {
  progress : list Z;          (* arguments of job.updateProgress, oldest first *)
  tempFiles : list string;    (* files present in working storage *)
  uploads : list string;      (* object paths written through MinIO *)
  documents : list string;    (* analyses accepted by GraphRAG *)
  logs : list string;         (* logger.error / logger.warn lines *)
}.

Definition emptyWorld : World := mkWorld [] [] [] [] [].

(** The collaborators.  Each field answers one kind of awaited call. *)
Record Env : Type := mkEnv {
  tempDir : string;                          (* process.env.TEMP_DIR || '/tmp/geoagent' *)
  env_updateProgress : Z -> Settle;          (* job.updateProgress(v) *)
  env_mkdir : string -> Settle;              (* fs.mkdir(dir, {recursive}) *)
  env_download : string -> Settle;           (* minioClient.downloadFile(url) *)
  env_writeFile : string -> Settle;          (* fs.writeFile(path, buffer) *)
  env_ml : string -> Result MLResponse;      (* mlClient.<method>(...) *)
  env_upload : string -> Settle;             (* minioClient.uploadFile(path, ...) *)
  env_store : string -> Settle;              (* graphragClient.store<Kind>Analysis *)
  env_unlink : string -> Settle;             (* fs.unlink(path) *)
}.

(** ** The monad of asynchronous worker code *)

Definition M (A : Type) : Type := World -> Result A * World.

Definition ret {A} (a : A) : M A := fun w => (Ok a, w).

Definition bind {A B} (m : M A) (k : A -> M B) : M B :=
  fun w => match m w with
           | (Ok a, w') => k a w'
           | (Throw e, w') => (Throw e, w')
           end.

Definition throw {A} (msg : string) : M A := fun w => (Throw msg, w).

(** [try { m } catch (error) { h error.message }] *)
Definition tryCatch {A} (m : M A) (h : string -> M A) : M A :=
  fun w => match m w with
           | (Ok a, w') => (Ok a, w')
           | (Throw e, w') => h e w'
           end.

(** [promise.catch(onError)] for a handler that returns normally. *)
Definition catchWith (m : M unit) (onError : string -> M unit) : M unit :=
  tryCatch m onError.

Definition modify (f : World -> World) : M unit := fun w => (Ok tt, f w).

Definition settle (s : Settle) : M unit :=
  match s with
  | Fulfilled => ret tt
  | Rejected e => throw e
  end.

Definition lift {A} (r : Result A) : M A :=
  match r with
  | Ok a => ret a
  | Throw e => throw e
  end.

#[global] Instance M_ret : MRet M := @ret.
#[global] Instance M_bind : MBind M := fun A B k m => bind m k.

(** ** Primitive effects *)

Definition logLine (line : string) : M unit :=
  modify (fun w => mkWorld (progress w) (tempFiles w) (uploads w) (documents w)
                           (logs w ++ [line])).

Section WithEnv.

Variable env : Env.

Definition updateProgress (v : Z) : M unit :=
  settle (env_updateProgress env v) ;;
  modify (fun w => mkWorld (progress w ++ [v]) (tempFiles w) (uploads w)
                           (documents w) (logs w)).

Definition mkdir (dir : string) : M unit := settle (env_mkdir env dir).

Definition downloadFile (url : string) : M unit := settle (env_download env url).

Definition writeFile (path : string) : M unit :=
  settle (env_writeFile env path) ;;
  modify (fun w => mkWorld (progress w)
                           (if bool_decide (path ∈ tempFiles w)
                            then tempFiles w else tempFiles w ++ [path])
                           (uploads w) (documents w) (logs w)).

Definition unlink (path : string) : M unit :=
  settle (env_unlink env path) ;;
  modify (fun w => mkWorld (progress w)
                           (filter (fun p => p ≠ path) (tempFiles w))
                           (uploads w) (documents w) (logs w)).

Definition uploadFile (path : string) : M unit :=
  settle (env_upload env path) ;;
  modify (fun w => mkWorld (progress w) (tempFiles w) (uploads w ++ [path])
                           (documents w) (logs w)).

Definition mlCall (method : string) : M MLResponse := lift (env_ml env method).

(** The five [store*Analysis] methods of the GraphRAG client post one
    document and let the request's error escape. *)
Definition storeAnalysis (kind : string) (job : string) : M unit :=
  settle (env_store env kind) ;;
  modify (fun w => mkWorld (progress w) (tempFiles w) (uploads w)
                           (documents w ++ [kind +:+ ":" +:+ job]) (logs w)).

(** [path.join(dir, name)] for a plain file name. *)
Definition pathJoin (dir name : string) : string := dir +:+ "/" +:+ name.

(** ** SAR processor (processors/sar-processor.ts) *)

Definition sarTempPath (job : string) (i : nat) : string :=
  pathJoin (tempDir env) (job +:+ "_sar_" +:+ pretty i +:+ ".tif").

(** The download loop [for (let i = 0; i < urls.length; i++)], from index
    [i] on; it returns the paths pushed to [tempPaths]. *)
Fixpoint sarFetch (job : string) (i : nat) (urls : list string) : M (list string) :=
  match urls with
  | [] => ret []
  | url :: rest =>
      downloadFile url ;;
      let tempPath := sarTempPath job i in
      writeFile tempPath ;;
      paths ← sarFetch job (S i) rest;
      ret (tempPath :: paths)
  end.

(** [for (const tempPath of tempPaths) await fs.unlink(tempPath).catch(() => {})] *)
Fixpoint unlinkAll (paths : list string) : M unit :=
  match paths with
  | [] => ret tt
  | p :: rest => catchWith (unlink p) (fun _ => ret tt) ;; unlinkAll rest
  end.

(** One case of the operation switch: the image-count guard, the ML call
    and the GraphRAG store. *)
Definition sarCase (job guardMsg method : string) (tempPaths : list string) : M unit :=
  (if bool_decide (length tempPaths < 2)%nat
   then throw guardMsg else ret tt) ;;
  mlCall method ;;
  storeAnalysis "sar" job.

Definition sarSwitch (job op : string) (tempPaths : list string) : M unit :=
  if String.eqb op "interferometry" then
    sarCase job "Interferometry requires at least 2 SAR images"
            "processInterferometry" tempPaths
  else if String.eqb op "coherence" then
    sarCase job "Coherence calculation requires at least 2 SAR images"
            "calculateCoherence" tempPaths
  else if String.eqb op "change_detection" then
    sarCase job "Change detection requires at least 2 SAR images"
            "detectSARChanges" tempPaths
  else throw ("Unknown SAR operation: " +:+ op).

Definition processSARJob (d : JobData) : M ProcessingResult :=
  tryCatch
    (updateProgress 10 ;;
     mkdir (tempDir env) ;;
     let urls := default [] (sourceUrls d) in
     tempPaths ← sarFetch (jobId d) 0 urls;
     updateProgress 30 ;;
     sarSwitch (jobId d) (operation d) tempPaths ;;
     updateProgress 80 ;;
     unlinkAll tempPaths ;;
     updateProgress 100 ;;
     mret (mkProcessingResult (jobId d) (operation d) []))
    (fun e => logLine "SAR processing failed" ;; throw e).

(** ** Spectral processor (processors/spectral-processor.ts) *)

Definition processedPath (job file : string) : string :=
  "processed/" +:+ job +:+ "/" +:+ file.

(** The shape shared by [handleUnmixing], [handleMaterialIdentification],
    [handleMineralMapping] and [handleWaterQualityAnalysis]: checkpoint 30,
    the ML call, checkpoint 70, the upload of the JSON result, the GraphRAG
    store, checkpoint 100. *)
Definition spectralHandler (d : JobData) (method file op : string) : M ProcessingResult :=
  updateProgress 30 ;;
  mlCall method ;;
  updateProgress 70 ;;
  let outputPath := processedPath (jobId d) file in
  uploadFile outputPath ;;
  storeAnalysis "spectral" (jobId d) ;;
  updateProgress 100 ;;
  mret (mkProcessingResult (jobId d) op [outputPath]).

Definition handleUnmixing (d : JobData) : M ProcessingResult :=
  spectralHandler d "spectralUnmix" "unmixing_results.json" "unmix".

Definition handleMaterialIdentification (d : JobData) : M ProcessingResult :=
  spectralHandler d "identifyMaterials" "materials_results.json" "identify".

Definition handleVegetationAnalysis (d : JobData) : M ProcessingResult :=
  updateProgress 30 ;;
  vegResult ← mlCall "calculateVegetationIndices";
  updateProgress 70 ;;
  let outputPath := processedPath (jobId d) "vegetation_results.json" in
  uploadFile outputPath ;;
  match optOutputFormat d with
  | Some fmt =>
      if (String.eqb fmt "geotiff" || String.eqb fmt "png")%bool
      then if image vegResult
           then uploadFile (processedPath (jobId d) ("ndvi." +:+ fmt))
           else mret tt
      else mret tt
  | None => mret tt
  end ;;
  storeAnalysis "spectral" (jobId d) ;;
  updateProgress 100 ;;
  mret (mkProcessingResult (jobId d) "vegetation" [outputPath]).

Definition handleMineralMapping (d : JobData) : M ProcessingResult :=
  spectralHandler d "mapMinerals" "mineral_results.json" "minerals".

Definition handleWaterQualityAnalysis (d : JobData) : M ProcessingResult :=
  spectralHandler d "analyzeWaterQuality" "water_quality_results.json" "water_quality".

Definition spectralSwitch (d : JobData) : M ProcessingResult :=
  let op := operation d in
  if String.eqb op "unmix" then handleUnmixing d
  else if String.eqb op "identify" then handleMaterialIdentification d
  else if String.eqb op "vegetation" then handleVegetationAnalysis d
  else if String.eqb op "minerals" then handleMineralMapping d
  else if String.eqb op "water_quality" then handleWaterQualityAnalysis d
  else throw ("Unknown spectral operation: " +:+ op).

Definition processSpectralJob (d : JobData) : M ProcessingResult :=
  tryCatch
    (updateProgress 10 ;;
     downloadFile (sourceUrl d) ;;
     mkdir (tempDir env) ;;
     let tempPath := pathJoin (tempDir env) (jobId d +:+ "_spectral.tif") in
     writeFile tempPath ;;
     updateProgress 20 ;;
     result ← spectralSwitch d;
     catchWith (unlink tempPath) (fun _ => mret tt) ;;
     mret result)
    (fun e => logLine "Spectral processing failed" ;; throw e).

(** ** Thermal processor (processors/thermal-processor.ts) *)

(** [handleHeatmap] and [handleAnomalyDetection]: the image is uploaded
    only when the ML result carries one. *)
Definition thermalImageHandler (d : JobData) (method file op : string) : M ProcessingResult :=
  updateProgress 30 ;;
  mlResult ← mlCall method;
  updateProgress 70 ;;
  let imagePath := processedPath (jobId d) file in
  outputPaths ← (if image mlResult
                 then uploadFile imagePath ;; mret [imagePath]
                 else mret []);
  storeAnalysis "thermal" (jobId d) ;;
  updateProgress 100 ;;
  mret (mkProcessingResult (jobId d) op outputPaths).

Definition handleHeatmap (d : JobData) : M ProcessingResult :=
  thermalImageHandler d "generateHeatmap" "heatmap.png" "heatmap".

Definition handleAnomalyDetection (d : JobData) : M ProcessingResult :=
  thermalImageHandler d "detectAnomalies" "anomaly_map.png" "anomaly_detection".

Definition handleTemperatureExtraction (d : JobData) : M ProcessingResult :=
  updateProgress 30 ;;
  mlCall "extractTemperatures" ;;
  updateProgress 70 ;;
  let resultPath := processedPath (jobId d) "temperatures.json" in
  uploadFile resultPath ;;
  storeAnalysis "thermal" (jobId d) ;;
  updateProgress 100 ;;
  mret (mkProcessingResult (jobId d) "temperature_extract" [resultPath]).

Definition thermalSwitch (d : JobData) : M ProcessingResult :=
  let op := operation d in
  if String.eqb op "heatmap" then handleHeatmap d
  else if String.eqb op "anomaly_detection" then handleAnomalyDetection d
  else if String.eqb op "temperature_extract" then handleTemperatureExtraction d
  else throw ("Unknown thermal operation: " +:+ op).

Definition processThermalJob (d : JobData) : M ProcessingResult :=
  tryCatch
    (updateProgress 10 ;;
     downloadFile (sourceUrl d) ;;
     mkdir (tempDir env) ;;
     let tempPath := pathJoin (tempDir env) (jobId d +:+ "_thermal.tif") in
     writeFile tempPath ;;
     updateProgress 20 ;;
     result ← thermalSwitch d;
     catchWith (unlink tempPath) (fun _ => mret tt) ;;
     mret result)
    (fun e => logLine "Thermal processing failed" ;; throw e).

(** ** LiDAR processor (processors/lidar-processor.ts) *)

Definition includes (ops : list string) (op : string) : bool :=
  bool_decide (op ∈ ops).

Definition handleLiDARIngestion (d : JobData) : M ProcessingResult :=
  updateProgress 50 ;;
  updateProgress 100 ;;
  mret (mkProcessingResult (jobId d) "ingest" [sourceUrl d]).

Definition lidarTempPath (d : JobData) : string :=
  pathJoin (tempDir env) (jobId d +:+ ".las").

Definition handleLiDARProcessing (d : JobData) : M ProcessingResult :=
  let operations := optOperations d in
  tryCatch
    (updateProgress 10 ;;
     downloadFile (sourceUrl d) ;;
     updateProgress 20 ;;
     mkdir (tempDir env) ;;
     let tempPath := lidarTempPath d in
     writeFile tempPath ;;
     updateProgress 30 ;;
     (if (includes operations "classify_ground"
          || includes operations "extract_buildings")%bool
      then mlCall "classifyLiDAR" ;; updateProgress 60
      else mret tt) ;;
     (if (includes operations "dem" || includes operations "dsm"
          || includes operations "chm")%bool
      then updateProgress 80
      else mret tt) ;;
     let resultPath := processedPath (jobId d) "results.json" in
     uploadFile resultPath ;;
     updateProgress 90 ;;
     storeAnalysis "lidar" (jobId d) ;;
     updateProgress 100 ;;
     catchWith (unlink tempPath) (fun _ => logLine "Failed to delete temp file") ;;
     mret (mkProcessingResult (jobId d) "process" [resultPath]))
    (fun e =>
       catchWith (unlink (lidarTempPath d)) (fun _ => mret tt) ;;
       throw e).

Definition processLiDARJob (d : JobData) : M ProcessingResult :=
  tryCatch
    (updateProgress 10 ;;
     if String.eqb (operation d) "ingest" then handleLiDARIngestion d
     else if String.eqb (operation d) "process" then handleLiDARProcessing d
     else throw ("Unknown LiDAR operation: " +:+ operation d))
    (fun e => logLine "LiDAR processing failed" ;; throw e).

(** ** Fusion processor (processors/fusion-processor.ts) *)

Definition processFusionJob (d : JobData) : M ProcessingResult :=
  updateProgress 50 ;;
  updateProgress 100 ;;
  mret (mkProcessingResult (jobId d) (operation d) []).

(** ** Dispatch by job type (worker-node/src/index.ts, [processJob]) *)

Definition processJob (d : JobData) : M ProcessingResult :=
  tryCatch
    (let ty := jobType d in
     if String.eqb ty "lidar" then processLiDARJob d
     else if String.eqb ty "spectral" then processSpectralJob d
     else if String.eqb ty "sar" then processSARJob d
     else if String.eqb ty "thermal" then processThermalJob d
     else if String.eqb ty "fusion" then processFusionJob d
     else throw ("Unknown job type: " +:+ ty))
    (fun e => logLine "Job processing failed" ;; throw e).

End WithEnv.

End Worker.

(** ** The job queue *)

Module Queue.

Import Worker.

(** The states [job.getState()] answers for jobs of this queue.  A job
    added with a priority ([if (opts.priority)], any number but 0) waits
    in [prioritized]; one added without priority waits in [waiting]. *)
Inductive JobState : Type :=
  | waiting
  | prioritized
  | delayed
  | active
  | completed
  | failed.

#[global] Instance JobState_eq_dec : EqDecision JobState.
Proof. solve_decision. Defined.

(** A job as the queue library keeps it: the payload and the options
    [addJob] passes ([jobId], [priority], [attempts], [backoff.delay]),
    and the fields the status route reads back. *)
Record Job : Type := mkJob {
  id : string;
  name : string;
  data : JobData;
  opt_priority : Z;
  opt_attempts : Z;
  opt_backoffDelay : Z;
  state : JobState;
  jobProgress : Z;
  attemptsMade : Z;
  returnvalue : option ProcessingResult;
  failedReason : option string;
  delay : Z;               (* backoff delay of a delayed job, in ms *)
  ticket : nat;            (* insertion counter: first in, first out within a priority *)
}.

Record Queue : Type := mkQueue {
  jobs : gmap string Job;
  counter : nat;
}.

Definition emptyQueue : Queue := mkQueue ∅ 0.

Definition isTerminal (s : JobState) : bool :=
  match s with
  | completed | failed => true
  | _ => false
  end.

(** *** Library contract: [Queue.add], [Queue.getJob], [Job.remove]

    These three are BullMQ calls, not code of this repository; they are
    modelled by the contract of the library (version 5).  [add] first
    checks the options it is given and rejects a custom [jobId] that is
    ['0'] or starts with ['0:'], one that [parseInt] reads and prints
    back unchanged, one that contains [':'] (unless it has exactly three
    [':']-separated parts) and a priority above [2 ^ 21]; nothing is
    stored then.  [add] with a custom [jobId] that is already present
    does not add anything and still resolves with a job object; [getJob]
    resolves with a handle on the stored job, or with nothing; [remove]
    deletes the job's record and rejects for a job a worker holds.

    [addJob] always passes [jobData.jobId] as the custom id, and every
    route makes it a [uuidv4()].  For an empty id the library would
    number the job itself; no caller of [addJob] does that and the model
    keeps the job under the id it is given. *)

Definition isDigit (c : Ascii.ascii) : bool :=
  (48 <=? Ascii.nat_of_ascii c)%nat && (Ascii.nat_of_ascii c <=? 57)%nat.

Fixpoint digitsValue (acc : Z) (s : string) : option Z :=
  match s with
  | EmptyString => Some acc
  | String c r =>
      if isDigit c
      then digitsValue (10 * acc + (Z.of_nat (Ascii.nat_of_ascii c) - 48))%Z r
      else None
  end.

(** The number a string denotes when the string is the way JavaScript
    prints a non-negative integer below [1e21]: digits only, no leading
    zero. *)
Definition canonicalNumeral (s : string) : option Z :=
  if String.eqb s "" then None
  else if String.prefix "0" s && negb (String.eqb s "0") then None
  else digitsValue 0 s.

(** Number of decimal digits of a positive integer. *)
Fixpoint numDigitsFrom (fuel : nat) (k p n : Z) : Z :=
  match fuel with
  | O => k
  | S f => if (n <? p)%Z then k else numDigitsFrom f (k + 1)%Z (10 * p)%Z n
  end.

Definition numDigits (n : Z) : Z := numDigitsFrom 400 1 10 n.

(** [parseInt] answers a double: the integer nearest to the numeral among
    the multiples of [2 ^ e] with a 53-bit factor, ties to the even
    factor. *)
Definition roundToDouble (n : Z) : Z :=
  let e := (Z.log2 n - 52)%Z in
  if (e <=? 0)%Z then n
  else
    let q := (n / 2 ^ e)%Z in
    let r := (n mod 2 ^ e)%Z in
    let half := (2 ^ (e - 1))%Z in
    let m := if (r <? half)%Z then q
             else if (half <? r)%Z then (q + 1)%Z
             else if Z.even q then q else (q + 1)%Z in
    (m * 2 ^ e)%Z.

(** The integer [Number.prototype.toString] prints for an integer-valued
    double [d] with [2 ^ 53 <= d < 1e21]: among the numerals that read
    back as [d], one with the fewest significant digits, the closest to
    [d] (the even one at a tie).  Bounds are compared in quarters. *)
Fixpoint shortestFrom (fuel : nat) (inside : Z -> bool) (nd d k : Z) : Z :=
  match fuel with
  | O => d
  | S f =>
      let p := (10 ^ (nd - k))%Z in
      let c1 := (d / p * p)%Z in
      let c2 := (c1 + p)%Z in
      if inside c1 && inside c2 then
        if (d - c1 <? c2 - d)%Z then c1
        else if (c2 - d <? d - c1)%Z then c2
        else if Z.even (c1 / p) then c1 else c2
      else if inside c1 then c1
      else if inside c2 then c2
      else shortestFrom f inside nd d (k + 1)%Z
  end.

Definition shortest (d : Z) : Z :=
  let e := (Z.log2 d - 52)%Z in
  let m := (d / 2 ^ e)%Z in
  let up4 := (2 ^ (e + 1))%Z in
  let down4 := if (m =? 2 ^ 52)%Z then (2 ^ e)%Z else (2 ^ (e + 1))%Z in
  let lo4 := (4 * d - down4)%Z in
  let hi4 := (4 * d + up4)%Z in
  let inside c := if Z.even m
                  then (lo4 <=? 4 * c)%Z && (4 * c <=? hi4)%Z
                  else (lo4 <? 4 * c)%Z && (4 * c <? hi4)%Z in
  shortestFrom 25 inside (numDigits d) d 1.

(** Whether printing [parseInt] of the numeral of [v] gives the numeral
    back: always below [2 ^ 53]; never from [1e21] on, where the number
    is printed with an exponent. *)
Definition roundTrips (v : Z) : bool :=
  if (v <? 2 ^ 53)%Z then true
  else
    let d := roundToDouble v in
    if (10 ^ 21 <=? d)%Z then false else (shortest d =? v)%Z.

Definition dropFirst (s : string) : string :=
  match s with
  | EmptyString => EmptyString
  | String _ r => r
  end.

(** [`${parseInt(jobId, 10)}` === jobId]: the id is the text of an
    integer as JavaScript prints it (or the text [NaN]). *)
Definition parseIntEchoes (jid : string) : bool :=
  if String.eqb jid "NaN" then true
  else if String.prefix "-" jid
  then match canonicalNumeral (dropFirst jid) with
       | Some v => (0 <? v)%Z && roundTrips v
       | None => false
       end
  else match canonicalNumeral jid with
       | Some v => roundTrips v
       | None => false
       end.

Fixpoint countColons (s : string) : nat :=
  match s with
  | EmptyString => 0
  | String c r =>
      (if String.eqb (String c EmptyString) ":" then 1 else 0) + countColons r
  end.

Definition PRIORITY_LIMIT : Z := 2 ^ 21.

(** The check of [Queue.add] and [Job.validateOptions] on the options
    [addJob] passes: the error thrown, if any. *)
Definition optionsError (jid : string) (priority : Z) : option string :=
  if String.eqb jid "0" || String.prefix "0:" jid
  then Some "JobId cannot be '0' or start with 0:"
  else if parseIntEchoes jid
  then Some "Custom Id cannot be integers"
  else if (0 <? countColons jid)%nat && negb (countColons jid =? 2)%nat
  then Some "Custom Id cannot contain :"
  else if (PRIORITY_LIMIT <? priority)%Z
  then Some "Priority should be between 0 and 2097152"
  else None.

Definition newJob (nm : string) (d : JobData) (jid : string)
    (priority attempts backoff : Z) (t : nat) : Job :=
  mkJob jid nm d priority attempts backoff
        (if (priority =? 0)%Z then waiting else prioritized)
        0 0 None None 0 t.

Definition lib_add (q : Queue) (nm : string) (d : JobData) (jid : string)
    (priority attempts backoff : Z) : Result Job * Queue :=
  match optionsError jid priority with
  | Some message => (Throw message, q)
  | None =>
      let job := newJob nm d jid priority attempts backoff (counter q) in
      match jobs q !! jid with
      | Some _ => (Ok job, q)
      | None => (Ok job, mkQueue (<[jid := job]> (jobs q)) (S (counter q)))
      end
  end.

(** The handle [getJob] builds carries the id it was asked for. *)
Definition withId (jid : string) (j : Job) : Job :=
  mkJob jid (name j) (data j) (opt_priority j) (opt_attempts j)
        (opt_backoffDelay j) (state j) (jobProgress j) (attemptsMade j)
        (returnvalue j) (failedReason j) (delay j) (ticket j).

Definition lib_getJob (q : Queue) (jid : string) : Result (option Job) :=
  Ok (withId jid <$> jobs q !! jid).

Definition lib_remove (q : Queue) (j : Job) : Result unit * Queue :=
  match state j with
  | active =>
      (Throw ("Job " +:+ id j +:+
              " could not be removed because it is locked by another worker"), q)
  | _ => (Ok tt, mkQueue (delete (id j) (jobs q)) (counter q))
  end.

(** *** HyperModalJobQueue (services/hypermodal/job-queue.ts) *)

(** [defaultJobOptions] and the per-job options of [addJob]. *)
Definition attempts : Z := 3.
Definition backoffDelay : Z := 5000.

Definition addJob (q : Queue) (jobData : JobData) (priority : Z) : Result Job * Queue :=
  match lib_add q (jobType jobData) jobData (jobId jobData)
                priority attempts backoffDelay with
  | (Ok job, q') => (Ok job, q')
  | (Throw errorMessage, q') =>
      (Throw ("Failed to add job to queue: " +:+ errorMessage), q')
  end.

Definition getJob (q : Queue) (jid : string) : Result (option Job) :=
  match lib_getJob q jid with
  | Ok job => Ok job
  | Throw errorMessage => Throw ("Failed to get job: " +:+ errorMessage)
  end.

Definition cancelJob (q : Queue) (jid : string) : Result bool * Queue :=
  match lib_getJob q jid with
  | Ok None => (Ok false, q)
  | Ok (Some job) =>
      if isTerminal (state job)
      then (Ok false, q)
      else match lib_remove q job with
           | (Ok _, q') => (Ok true, q')
           | (Throw errorMessage, q') =>
               (Throw ("Failed to cancel job: " +:+ errorMessage), q')
           end
  | Throw errorMessage => (Throw ("Failed to cancel job: " +:+ errorMessage), q)
  end.

(** *** Job routes (routes/hypermodal/jobs.ts) *)

(** What the status route tells about a job.  The three timestamps of
    the answer ([createdAt], [processedOn], [finishedOn]) are left out:
    the model has no clock. *)
Record JobStatus : Type := mkJobStatus {
  js_id : string;
  js_type : string;
  js_status : JobState;
  js_progress : Z;
  js_data : JobData;
  js_result : option ProcessingResult;
  js_failedReason : option string;
  js_attemptsMade : Z;
}.

(** The bodies of the answers that carry one: the job of a status query,
    and the receipt of an admission ([jobId], [statusUrl]; its status is
    always ['queued']). *)
Inductive Body : Type :=
  | JobBody (job : JobStatus)
  | QueuedBody (jobId statusUrl : string).

Record Response : Type := mkResponse {
  statusCode : Z;
  success : bool;
  error : option string;
  body : option Body;
}.

Definition jobStatus (job : Job) : JobStatus :=
  mkJobStatus (id job) (name job) (state job) (jobProgress job) (data job)
              (returnvalue job) (failedReason job) (attemptsMade job).

(** [GET /jobs/:jobId] *)
Definition getJobRoute (q : Queue) (jid : string) : Response :=
  match getJob q jid with
  | Ok None => mkResponse 404 false (Some "JOB_NOT_FOUND") None
  | Ok (Some job) => mkResponse 200 true None (Some (JobBody (jobStatus job)))
  | Throw _ => mkResponse 500 false (Some "STATUS_QUERY_FAILED") None
  end.

(** [DELETE /jobs/:jobId] *)
Definition deleteJobRoute (q : Queue) (jid : string) : Response * Queue :=
  match cancelJob q jid with
  | (Ok false, q') => (mkResponse 404 false (Some "CANNOT_CANCEL") None, q')
  | (Ok true, q') => (mkResponse 200 true None None, q')
  | (Throw _, q') => (mkResponse 500 false (Some "CANCELLATION_FAILED") None, q')
  end.

(** *** Library contract: the worker's side

    The BullMQ [Worker] that index.ts constructs around [processJob]:
    which job it claims next, and how it settles a job after the handler
    resolves or rejects.  The library serves the smallest priority number
    first (jobs without priority before all others) and, within one
    priority, the earliest added; an attempt that rejects is retried after
    the backoff delay while fewer than [attempts] attempts have been made,
    the built-in exponential backoff being [2 ^ (attemptsMade - 1) * delay]. *)

Definition before (a b : Job) : bool :=
  (opt_priority a <? opt_priority b)%Z ||
  ((opt_priority a =? opt_priority b)%Z && (ticket a <? ticket b)%nat).

Definition pickFirst (l : list Job) : option Job :=
  foldr (fun j acc => match acc with
                      | None => Some j
                      | Some b => if before j b then Some j else Some b
                      end) None l.

Definition handles (q : Queue) : list Job :=
  (fun kj => withId kj.1 kj.2) <$> map_to_list (jobs q).

Definition inState (s : JobState) (q : Queue) : list Job :=
  filter (fun j => state j = s) (handles q).

Definition nextJob (q : Queue) : option Job :=
  match pickFirst (inState waiting q) with
  | Some j => Some j
  | None => pickFirst (inState prioritized q)
  end.

Definition setState (s : JobState) (j : Job) : Job :=
  mkJob (id j) (name j) (data j) (opt_priority j) (opt_attempts j)
        (opt_backoffDelay j) s (jobProgress j) (attemptsMade j)
        (returnvalue j) (failedReason j) (delay j) (ticket j).

Definition claim (j : Job) : Job := setState active j.

Definition exponentialBackoff (delay made : Z) : Z := 2 ^ (made - 1) * delay.

Definition moveToCompleted (r : ProcessingResult) (j : Job) : Job :=
  mkJob (id j) (name j) (data j) (opt_priority j) (opt_attempts j)
        (opt_backoffDelay j) completed (jobProgress j) (attemptsMade j + 1)
        (Some r) (failedReason j) 0 (ticket j).

Definition moveToFailed (reason : string) (j : Job) : Job :=
  let made := attemptsMade j + 1 in
  if (made <? opt_attempts j)%Z
  then mkJob (id j) (name j) (data j) (opt_priority j) (opt_attempts j)
             (opt_backoffDelay j) delayed (jobProgress j) made
             (returnvalue j) (Some reason)
             (exponentialBackoff (opt_backoffDelay j) made) (ticket j)
  else mkJob (id j) (name j) (data j) (opt_priority j) (opt_attempts j)
             (opt_backoffDelay j) failed (jobProgress j) made
             (returnvalue j) (Some reason) 0 (ticket j).

(** A delayed job whose backoff has elapsed waits again. *)
Definition promote (j : Job) : Job :=
  match state j with
  | delayed =>
      mkJob (id j) (name j) (data j) (opt_priority j) (opt_attempts j)
            (opt_backoffDelay j)
            (if (opt_priority j =? 0)%Z then waiting else prioritized)
            (jobProgress j) (attemptsMade j)
            (returnvalue j) (failedReason j) 0 (ticket j)
  | _ => j
  end.

Definition setProgress (v : Z) (j : Job) : Job :=
  mkJob (id j) (name j) (data j) (opt_priority j) (opt_attempts j)
        (opt_backoffDelay j) (state j) v (attemptsMade j)
        (returnvalue j) (failedReason j) (delay j) (ticket j).

(** The values one attempt reported: what the handler appended to the
    world's progress log. *)
Definition reported (w w' : World) : list Z :=
  drop (length (progress w)) (progress w').

(** How the worker settles a claimed job once the handler's promise has
    settled. *)
Definition settleAttempt (r : Result ProcessingResult) (j : Job) : Job :=
  match r with
  | Ok v => moveToCompleted v j
  | Throw e => moveToFailed e j
  end.

(** One attempt of a claimed job: run [processJob], keep the last
    reported progress on the job, settle by the handler's outcome. *)
Definition runAttempt (env : Env) (j : Job) (w : World) : Job * World :=
  match processJob env (data j) w with
  | (r, w') =>
      (settleAttempt r
         (setProgress (List.last (reported w w') (jobProgress j)) j), w')
  end.


(** The life of one job: attempt after attempt (the backoff elapsing in
    between) until a terminal state, for at most [fuel] attempts. *)
Fixpoint lifecycle (env : Env) (fuel : nat) (j : Job) (w : World) : Job * World :=
  match fuel with
  | O => (j, w)
  | S n =>
      if isTerminal (state j) then (j, w)
      else match runAttempt env (claim (promote j)) w with
           | (j', w') => lifecycle env n j' w'
           end
  end.

(** The order in which a worker claims the next [n] jobs while none of
    them has finished. *)
Fixpoint dispatchOrder (n : nat) (q : Queue) : list Job :=
  match n with
  | O => []
  | S m =>
      match nextJob q with
      | Some j =>
          j :: dispatchOrder m (mkQueue (<[id j := claim j]> (jobs q)) (counter q))
      | None => []
      end
  end.

(** One turn of the worker on the whole queue: claim the next job and
    run one attempt of it; with nothing to claim, the backoff timers
    elapse. *)
Definition workerStep (env : Env) (q : Queue) (w : World) : Queue * World :=
  match nextJob q with
  | Some j =>
      match runAttempt env (claim j) w with
      | (j', w') => (mkQueue (<[id j := j']> (jobs q)) (counter q), w')
      end
  | None => (mkQueue (promote <$> jobs q) (counter q), w)
  end.

(** What can happen to the queue: the two job routes, an admission, a
    worker turn. *)
Inductive Event : Type :=
  | GetStatus (jid : string)
  | Cancel (jid : string)
  | Enqueue (jobData : JobData) (priority : Z)
  | WorkerTurn (env : Env).

Definition handleEvent (ev : Event) (s : Queue * World) : Queue * World :=
  match ev with
  | GetStatus _ => s
  | Cancel jid => ((deleteJobRoute s.1 jid).2, s.2)
  | Enqueue jobData priority => ((addJob s.1 jobData priority).2, s.2)
  | WorkerTurn env => workerStep env s.1 s.2
  end.

Definition handleEvents (evs : list Event) (s : Queue * World) : Queue * World :=
  foldl (fun s ev => handleEvent ev s) s evs.

Definition enqueues (jid : string) (ev : Event) : bool :=
  match ev with
  | Enqueue jobData _ => String.eqb (jobId jobData) jid
  | _ => false
  end.

End Queue.


(** ** Admission routes (routes/hypermodal/sar.ts, fusion.ts) *)

Module Admission.

Import Worker Queue.

(** The job data the routes build.  None of them sets [sourceUrls] or the
    [operations] / [outputFormat] options. *)
Definition sarIngestData (jid uid minioPath : string) : JobData :=
  mkJobData jid uid "sar" "ingest" minioPath None [] None.

Definition sarInterferometryData (jid uid : string) (dataset_ids : list string) : JobData :=
  mkJobData jid uid "sar" "interferometry" (String.concat "," dataset_ids) None [] None.

Definition sarChangeData (jid uid before_dataset after_dataset : string) : JobData :=
  mkJobData jid uid "sar" "change" (before_dataset +:+ "," +:+ after_dataset)
            None [] None.

Definition fusionMultimodalData (jid uid : string) (dataset_ids : list string) : JobData :=
  mkJobData jid uid "fusion" "multimodal" (String.concat "," dataset_ids) None [] None.

(** The tail shared by the routes: enqueue with the route's priority and
    answer 202, or 500 with the route's error code. *)
Definition enqueueAndRespond (q : Queue) (jobData : JobData) (priority : Z)
    (failure : string) : Response * Queue :=
  match addJob q jobData priority with
  | (Ok _, q') =>
      (mkResponse 202 true None
         (Some (QueuedBody (jobId jobData)
                           ("/api/v1/hypermodal/jobs/" +:+ jobId jobData))), q')
  | (Throw _, q') => (mkResponse 500 false (Some failure) None, q')
  end.

(** [POST /sar/ingest], after the file has been uploaded to [minioPath];
    [jid] is the fresh [uuidv4()]. *)
Definition postSarIngest (q : Queue) (jid uid minioPath : string) : Response * Queue :=
  enqueueAndRespond q (sarIngestData jid uid minioPath) 5 "INGESTION_FAILED".

(** [POST /sar/interferometry] *)
Definition postSarInterferometry (q : Queue) (jid uid : string)
    (dataset_ids : list string) : Response * Queue :=
  if bool_decide (length dataset_ids < 2)%nat
  then (mkResponse 400 false (Some "INVALID_DATASET_IDS") None, q)
  else enqueueAndRespond q (sarInterferometryData jid uid dataset_ids) 8
                         "INTERFEROMETRY_FAILED".

(** [POST /sar/change], with both datasets present. *)
Definition postSarChange (q : Queue) (jid uid before_dataset after_dataset : string)
    : Response * Queue :=
  enqueueAndRespond q (sarChangeData jid uid before_dataset after_dataset) 7
                    "CHANGE_DETECTION_FAILED".

(** [POST /fusion/multimodal], past its validation. *)
Definition postFusionMultimodal (q : Queue) (jid uid : string)
    (dataset_ids : list string) : Response * Queue :=
  enqueueAndRespond q (fusionMultimodalData jid uid dataset_ids) 9 "FUSION_FAILED".

End Admission.

(** ** QueueService (api/src/services/queue-service.ts) *)

Module QueueService.

(** The job object [enqueue] serialises; [data] is opaque. *)
Record SimpleJob : Type := mkSimpleJob {
  sj_id : string;
  sj_queue : string;
  sj_data : string;
  sj_status : string;
  sj_createdAt : string;
}.

(** The part of Redis the service touches: lists and plain keys. *)
Record Redis : Type := mkRedis {
  lists : gmap string (list SimpleJob);
  keys : gmap string SimpleJob;
}.

Definition emptyRedis : Redis := mkRedis ∅ ∅.

Definition lpush (key : string) (v : SimpleJob) (r : Redis) : Redis :=
  mkRedis (<[key := v :: default [] (lists r !! key)]> (lists r)) (keys r).

Definition set (key : string) (v : SimpleJob) (r : Redis) : Redis :=
  mkRedis (lists r) (<[key := v]> (keys r)).

(** [enqueue(queue, data)].  The id is made of [Date.now()] and a random
    suffix, both read from the outside; the caller cannot choose it. *)
Definition enqueue (r : Redis) (now : Z) (random createdAt : string)
    (queue data : string) : string * Redis :=
  let jobId := "job_" +:+ pretty now +:+ "_" +:+ random in
  let job := mkSimpleJob jobId queue data "pending" createdAt in
  (jobId, set ("job:" +:+ jobId) job (lpush ("queue:" +:+ queue) job r)).

End QueueService.

(** ** Sample collaborators, jobs and queues *)

Module Samples.

Import Worker Queue Admission.

(** Every collaborator answers; the ML service returns an image. *)
Definition healthy : Env :=
  mkEnv "/tmp/geoagent"
        (fun _ => Fulfilled) (fun _ => Fulfilled) (fun _ => Fulfilled)
        (fun _ => Fulfilled) (fun _ => Ok (mkMLResponse true))
        (fun _ => Fulfilled) (fun _ => Fulfilled) (fun _ => Fulfilled).

(** GraphRAG refuses the connection; everything else answers. *)
Definition sinkDown : Env :=
  mkEnv "/tmp/geoagent"
        (fun _ => Fulfilled) (fun _ => Fulfilled) (fun _ => Fulfilled)
        (fun _ => Fulfilled) (fun _ => Ok (mkMLResponse true))
        (fun _ => Fulfilled)
        (fun _ => Rejected "connect ECONNREFUSED nexus-graphrag:8090")
        (fun _ => Fulfilled).

(** The ML service times out; everything else answers. *)
Definition mlDown : Env :=
  mkEnv "/tmp/geoagent"
        (fun _ => Fulfilled) (fun _ => Fulfilled) (fun _ => Fulfilled)
        (fun _ => Fulfilled) (fun _ => Throw "timeout of 60000ms exceeded")
        (fun _ => Fulfilled) (fun _ => Fulfilled) (fun _ => Fulfilled).

(** An interferometry job on a pair of images, and one on a single image. *)
Definition sarPair : JobData :=
  mkJobData "job-pair" "anonymous" "sar" "interferometry" "raw/a.tif,raw/b.tif"
            (Some ["raw/a.tif"; "raw/b.tif"]) [] None.

Definition sarSingle : JobData :=
  mkJobData "job-single" "anonymous" "sar" "interferometry" "raw/a.tif"
            (Some ["raw/a.tif"]) [] None.

Definition lidarDem : JobData :=
  mkJobData "job-lidar" "anonymous" "lidar" "process" "raw/tile.las" None
            ["dem"] None.

(** The job [addJob] stores for [d] on an empty queue. *)
Definition stored (d : JobData) (priority : Z) : Job :=
  newJob (jobType d) d (jobId d) priority attempts backoffDelay 0.

(** A queue holding one finished job. *)
Definition finishedQueue : Queue :=
  mkQueue {[ "job-pair" :=
               moveToCompleted (mkProcessingResult "job-pair" "interferometry" [])
                               (claim (stored sarPair 8)) ]} 1.

(** A queue holding one job that has not started. *)
Definition pendingQueue : Queue := (addJob emptyQueue sarPair 8).2.

(** Ten admissions in a burst: five fusion jobs at priority 9, then five
    SAR ingests at priority 5. *)
Definition burst : Queue :=
  let add9 jid q := (postFusionMultimodal q jid "anonymous" ["d1"; "d2"]).2 in
  let add5 jid q := (postSarIngest q jid "anonymous" ("raw/" +:+ jid)).2 in
  add5 "e5" (add5 "e4" (add5 "e3" (add5 "e2" (add5 "e1"
    (add9 "f5" (add9 "f4" (add9 "f3" (add9 "f2" (add9 "f1" emptyQueue))))))))).

End Samples.

(** ** Redis reconnection (services/hypermodal/job-queue.ts, constructor) *)

Module QueueConnection.

(** [retryStrategy: (times) => Math.min(times * 1000, 10000)], the delay
    in ms before reconnection attempt number [times]. *)
Definition retryStrategy (times : Z) : Z := Z.min (times * 1000) 10000.

End QueueConnection.

(** ** The worker's MinIO client (worker-node/src/clients/minio-client.ts) *)

Module ObjectStore.

Definition bucket : string := "geoagent-hypermodal".

(** [`minio://${this.bucket}/`] *)
Definition bucketPrefix : string := "minio://" +:+ bucket +:+ "/".

(** [s.slice(n)] *)
Fixpoint dropChars (n : nat) (s : string) : string :=
  match n, s with
  | O, _ => s
  | S m, EmptyString => EmptyString
  | S m, String _ rest => dropChars m rest
  end.

(** [s.replace(pat, '')] for a string pattern: the first occurrence of
    [pat], if any, is removed. *)
Fixpoint stripFirst (pat s : string) : string :=
  if String.prefix pat s then dropChars (String.length pat) s
  else match s with
       | EmptyString => EmptyString
       | String c rest => String c (stripFirst pat rest)
       end.

(** The bucket: object key to content.  [getObject] rejects for a key
    that is not there. *)
Definition getObject (objects : gmap string string) (key : string) : Result string :=
  match objects !! key with
  | Some content => Ok content
  | None => Throw "The specified key does not exist."
  end.

Definition downloadFile (objects : gmap string string) (objectPath : string)
    : Result string :=
  let path := stripFirst bucketPrefix objectPath in
  getObject objects path.

Definition uploadFile (objects : gmap string string) (objectPath buffer : string)
    : string * gmap string string :=
  (bucketPrefix +:+ objectPath, <[objectPath := buffer]> objects).

End ObjectStore.

(** ** QueueService, reading back (api/src/services/queue-service.ts) *)

Module QueueServiceJobs.

Import QueueService.

(** [getJob(jobId)]: the value under [job:<id>], or [null]. *)
Definition getJob (r : Redis) (jobId : string) : option SimpleJob :=
  keys r !! ("job:" +:+ jobId).

End QueueServiceJobs.

(** ** More admission routes (thermal.ts, spectral.ts, sar.ts, lidar.ts,
       fusion.ts) *)

Module Routes.

Import Worker Queue Admission.

(** [!x] is false: the field is present and not the empty string. *)
Definition truthy (x : option string) : bool :=
  match x with
  | Some v => negb (String.eqb v "")
  | None => false
  end.

Definition badRequest (code : string) : Response :=
  mkResponse 400 false (Some code) None.

(** *** thermal.ts *)

Definition thermalIngestData (jid uid minioPath : string) : JobData :=
  mkJobData jid uid "thermal" "ingest" minioPath None [] None.

Definition thermalHeatmapData (jid uid dataset_id : string) : JobData :=
  mkJobData jid uid "thermal" "heatmap" dataset_id None [] None.

Definition thermalAnomalyData (jid uid dataset_id : string) : JobData :=
  mkJobData jid uid "thermal" "anomaly" dataset_id None [] None.

Definition thermalExtractData (jid uid dataset_id : string) : JobData :=
  mkJobData jid uid "thermal" "extract" dataset_id None [] None.

(** *** spectral.ts *)

Definition spectralIngestData (jid uid minioPath : string) : JobData :=
  mkJobData jid uid "spectral" "ingest" minioPath None [] None.

(** *** sar.ts *)

Definition sarCoherenceData (jid uid : string) (dataset_ids : list string) : JobData :=
  mkJobData jid uid "sar" "coherence" (String.concat "," dataset_ids) None [] None.

(** *** lidar.ts, [POST /lidar/process] *)

Definition validOperations : list string :=
  ["dem"; "dsm"; "chm"; "classify_ground"; "extract_buildings";
   "extract_vegetation"].

(** The route stores the operations under [options.operations]; it names
    the format [output_format], so [options.outputFormat] stays unset. *)
Definition lidarProcessData (jid uid dataset_id : string) (operations : list string)
    : JobData :=
  mkJobData jid uid "lidar" "process" dataset_id None operations None.

Definition postLidarProcess (q : Queue) (jid uid : string)
    (dataset_id : option string) (operations : option (list string))
    : Response * Queue :=
  if negb (truthy dataset_id) then (badRequest "MISSING_DATASET_ID", q)
  else match operations with
       | None | Some [] => (badRequest "MISSING_OPERATIONS", q)
       | Some ops =>
           let invalidOps := filter (fun op => op ∉ validOperations) ops in
           if bool_decide (0 < length invalidOps)%nat
           then (badRequest "INVALID_OPERATIONS", q)
           else enqueueAndRespond q
                  (lidarProcessData jid uid (default "" dataset_id) ops) 7
                  "PROCESSING_FAILED"
       end.

(** *** fusion.ts, [POST /fusion/multimodal] with its validation; of each
    dataset only the id is kept. *)

Definition validFusionMethods : list string :=
  ["pixel_level"; "feature_level"; "decision_level"].

Definition postFusionMultimodalRequest (q : Queue) (jid uid : string)
    (datasets : option (list string)) (fusion_method output_type : option string)
    : Response * Queue :=
  let method := default "feature_level" fusion_method in
  match datasets with
  | None => (badRequest "INSUFFICIENT_DATASETS", q)
  | Some ids =>
      if bool_decide (length ids < 2)%nat
      then (badRequest "INSUFFICIENT_DATASETS", q)
      else if negb (truthy output_type)
      then (badRequest "MISSING_OUTPUT_TYPE", q)
      else if negb (includes validFusionMethods method)
      then (badRequest "INVALID_FUSION_METHOD", q)
      else postFusionMultimodal q jid uid ids
  end.

End Routes.

(** ** Environments that differ in one collaborator *)

Module Variants.

Import Worker.

Definition withUnlink (env : Env) (u : string -> Settle) : Env :=
  mkEnv (tempDir env) (env_updateProgress env) (env_mkdir env) (env_download env)
        (env_writeFile env) (env_ml env) (env_upload env) (env_store env) u.

Definition withML (env : Env) (ml : string -> Result MLResponse) : Env :=
  mkEnv (tempDir env) (env_updateProgress env) (env_mkdir env) (env_download env)
        (env_writeFile env) ml (env_upload env) (env_store env) (env_unlink env).

End Variants.

(** * Vocabulary of the properties *)

Section Vocabulary.

Import Worker Queue.

(** [fails m]: the promise [m] is rejected whatever the world. *)
Definition fails {C} (c : M C) : Prop := forall w, isOk (c w).1 = false.

(** [rejects e m]: it is rejected with message [e]. *)
Definition rejects {C} (e : string) (c : M C) : Prop :=
  forall w, (c w).1 = Throw e.

(** [rejectsLogging e lines m]: it is rejected with [e], and what it
    wrote to the log on the way is exactly [lines]. *)
Definition rejectsLogging {C} (e : string) (lines : list string) (c : M C) : Prop :=
  forall w, (c w).1 = Throw e /\ logs (c w).2 = (logs w ++ lines)%list.

(** The [logger.error] line of the processor of a job type, written when
    the processor rethrows. *)
Definition failureLine (ty : string) : string :=
  if String.eqb ty "lidar" then "LiDAR processing failed"
  else if String.eqb ty "spectral" then "Spectral processing failed"
  else if String.eqb ty "sar" then "SAR processing failed"
  else "Thermal processing failed".

(** The steps of the SAR processor that precede the operation switch
    succeed. *)
Definition sarFetchSucceeds (env : Env) : Prop :=
  env_updateProgress env 10 = Fulfilled /\
  env_mkdir env (tempDir env) = Fulfilled /\
  (forall url, env_download env url = Fulfilled) /\
  (forall path, env_writeFile env path = Fulfilled) /\
  env_updateProgress env 30 = Fulfilled.

(** What one attempt may report: a non-decreasing sequence of values
    between 0 and 100 that never contains 0, starts (if it starts at all)
    with 10 or 50, and ends with 100 when the handler resolves. *)
Definition goodTrace (ok : bool) (tr : list Z) : Prop :=
  Sorted Z.le tr /\
  Forall (fun v => (0 <= v)%Z /\ (v <= 100)%Z) tr /\
  (0%Z ∉ tr) /\
  (head tr = None \/ head tr = Some 10%Z \/ head tr = Some 50%Z) /\
  (ok = true -> last tr = Some 100%Z).

#[global] Instance goodTrace_dec ok tr : Decision (goodTrace ok tr).
Proof. unfold goodTrace. apply _. Defined.


(** The jobs whose handler submits to GraphRAG: every operation the
    lidar [process], spectral, SAR and thermal switches know (SAR with its
    two images).  Fusion and lidar [ingest] never call it. *)
Definition submitsToSink (d : JobData) : bool :=
  if String.eqb (jobType d) "lidar" then String.eqb (operation d) "process"
  else if String.eqb (jobType d) "spectral" then
    bool_decide (operation d ∈ ["unmix"; "identify"; "vegetation"; "minerals";
                                "water_quality"])
  else if String.eqb (jobType d) "sar" then
    bool_decide (operation d ∈ ["interferometry"; "coherence"; "change_detection"])
    && bool_decide (2 <= length (default [] (sourceUrls d)))%nat
  else if String.eqb (jobType d) "thermal" then
    bool_decide (operation d ∈ ["heatmap"; "anomaly_detection";
                                "temperature_extract"])
  else false.

(** Fetch, compute and persist succeed; the GraphRAG store is rejected
    with [msg]. *)
Definition onlySinkFails (env : Env) (msg : string) : Prop :=
  (forall v, env_updateProgress env v = Fulfilled) /\
  (forall dir, env_mkdir env dir = Fulfilled) /\
  (forall url, env_download env url = Fulfilled) /\
  (forall path, env_writeFile env path = Fulfilled) /\
  (forall method, isOk (env_ml env method) = true) /\
  (forall path, env_upload env path = Fulfilled) /\
  (forall kind, env_store env kind = Rejected msg).

End Vocabulary.

(** * Vocabulary of the further properties *)

Section MoreVocabulary.

Import Worker Queue.

(** The steps of the spectral and thermal processors that precede the
    operation switch succeed. *)
Definition singleFetchSucceeds (env : Env) : Prop :=
  env_updateProgress env 10 = Fulfilled /\
  (forall url, env_download env url = Fulfilled) /\
  env_mkdir env (tempDir env) = Fulfilled /\
  (forall path, env_writeFile env path = Fulfilled) /\
  env_updateProgress env 20 = Fulfilled.

(** The jobs that run an analysis: all but fusion and lidar ingestion. *)
Definition analysisJob (d : JobData) : Prop :=
  jobType d = "spectral" \/ jobType d = "sar" \/ jobType d = "thermal" \/
  (jobType d = "lidar" /\ operation d = "process").

(** One document, named after the job, has been added to the index. *)
Definition indexedOnce (d : JobData) (w w' : World) : Prop :=
  documents w' = (documents w ++ [jobType d +:+ ":" +:+ jobId d])%list.

(** What one resolved attempt has done: the paths it returns were
    uploaded by it, its analysis was indexed once, and with a working
    unlink no new file is left in working storage. *)
Definition tidy (env : Env) (d : JobData) (w : World) (r : ProcessingResult)
    (w' : World) : Prop :=
  (exists new, uploads w' = (uploads w ++ new)%list /\ r_outputPaths r ⊆ new) /\
  indexedOnce d w w' /\
  ((forall p, env_unlink env p = Fulfilled) -> tempFiles w' ⊆ tempFiles w).

Definition summary (env : Env) (d : JobData) (m : M ProcessingResult) : Prop :=
  forall w,
    (documents (m w).2 = documents w \/ indexedOnce d w (m w).2) /\
    (forall r, (m w).1 = Ok r -> tidy env d w r (m w).2).

(** Two worlds that differ at most in working storage and in the log. *)
Definition sameButFiles (w1 w2 : World) : Prop :=
  progress w1 = progress w2 /\ uploads w1 = uploads w2 /\
  documents w1 = documents w2.

(** Two computations that settle alike from such worlds, and end in such
    worlds. *)
Definition agree {A} (m1 m2 : M A) : Prop :=
  forall w1 w2, sameButFiles w1 w2 ->
    (m1 w1).1 = (m2 w2).1 /\ sameButFiles (m1 w1).2 (m2 w2).2.

End MoreVocabulary.

(** * Properties *)

Import Worker Queue Admission.

(** ** The job store: cancellation and lookup *)

Section QueueFacts.

Implicit Types (q : Queue) (jid : string) (j : Job).

Lemma cancelJob_terminal q jid j :
  jobs q !! jid = Some j ->
  isTerminal (state j) = true ->
  cancelJob q jid = (Ok false, q).
Proof.
  intros Hj Ht. unfold cancelJob, lib_getJob. rewrite Hj. simpl.
  now rewrite Ht.
Qed.

Lemma cancelJob_true_inv q jid q' :
  cancelJob q jid = (Ok true, q') ->
  q' = mkQueue (delete jid (jobs q)) (counter q).
Proof.
  unfold cancelJob, lib_getJob.
  destruct (jobs q !! jid) as [j|]; simpl; [|congruence].
  destruct (isTerminal (state j)); [congruence|].
  unfold lib_remove. simpl. destruct (state j); simpl; congruence.
Qed.

Lemma deleteJobRoute_ok_inv q jid resp q' :
  deleteJobRoute q jid = (resp, q') ->
  statusCode resp = 200 ->
  cancelJob q jid = (Ok true, q').
Proof.
  unfold deleteJobRoute.
  destruct (cancelJob q jid) as [[[]|] q1]; intros [= <- <-]; simpl;
    intros; congruence.
Qed.

Lemma getJobRoute_absent q jid :
  jobs q !! jid = None ->
  getJobRoute q jid = mkResponse 404 false (Some "JOB_NOT_FOUND") None.
Proof.
  intros H. unfold getJobRoute, getJob, lib_getJob. now rewrite H.
Qed.

End QueueFacts.

(** ** The dispatcher's choice *)

Section Dispatch.

Implicit Types (q : Queue) (j : Job) (l : list Job).

Lemma pickFirst_elem l j : pickFirst l = Some j -> j ∈ l.
Proof.
  revert j. induction l as [|a l IH]; simpl; intros j; [discriminate|].
  destruct (pickFirst l) as [b|].
  - destruct (before a b); intros [= <-].
    + apply list_elem_of_here.
    + apply list_elem_of_further. now apply IH.
  - intros [= <-]. apply list_elem_of_here.
Qed.

Lemma handles_stored q j : j ∈ handles q -> is_Some (jobs q !! id j).
Proof.
  unfold handles. intros H. apply list_elem_of_fmap in H as [[k j0] [-> H]].
  apply elem_of_map_to_list in H. simpl. eauto.
Qed.

Lemma inState_handles s q j : j ∈ inState s q -> j ∈ handles q /\ state j = s.
Proof.
  unfold inState. intros H. apply list_elem_of_filter in H. tauto.
Qed.

Lemma nextJob_stored q j : nextJob q = Some j -> is_Some (jobs q !! id j).
Proof.
  unfold nextJob. intros H. apply handles_stored.
  destruct (pickFirst (inState waiting q)) as [a|] eqn:E.
  - injection H as <-. apply pickFirst_elem in E.
    now apply inState_handles in E.
  - apply pickFirst_elem in H. now apply inState_handles in H.
Qed.

Lemma pickFirst_None l : pickFirst l = None -> l = [].
Proof.
  destruct l as [|a l]; simpl; [done|].
  destruct (pickFirst l) as [b|]; [destruct (before a b)|]; discriminate.
Qed.

(** The job [pickFirst] answers is served before every other job of the
    list: no listed job has a smaller priority number. *)
Lemma pickFirst_least l j :
  pickFirst l = Some j ->
  forall j', j' ∈ l -> (opt_priority j <= opt_priority j')%Z.
Proof.
  revert j. induction l as [|a l IH]; simpl; intros j; [discriminate|].
  destruct (pickFirst l) as [b|] eqn:E.
  - destruct (before a b) eqn:Hab; intros [= <-] j' Hj'.
    + apply elem_of_cons in Hj' as [->|Hj']; [lia|].
      specialize (IH b eq_refl j' Hj'). unfold before in Hab.
      apply orb_true_iff in Hab as [Hab|Hab].
      * apply Z.ltb_lt in Hab. lia.
      * apply andb_true_iff in Hab as [Hab _]. apply Z.eqb_eq in Hab. lia.
    + apply elem_of_cons in Hj' as [->|Hj']; [|now apply IH].
      unfold before in Hab. apply orb_false_iff in Hab as [Hab _].
      apply Z.ltb_ge in Hab. lia.
  - intros [= <-] j' Hj'.
    apply elem_of_cons in Hj' as [->|Hj']; [lia|].
    apply pickFirst_None in E. subst l. inversion Hj'.
Qed.

End Dispatch.

(** ** Events leave absent jobs absent *)

Section Events.

Implicit Types (q : Queue) (jid : string) (w : World).

Lemma cancelJob_absent q jid jid' :
  jobs q !! jid = None -> jobs (cancelJob q jid').2 !! jid = None.
Proof.
  intros H. unfold cancelJob, lib_getJob.
  destruct (jobs q !! jid') as [j|]; simpl; [|done].
  destruct (isTerminal (state j)); [done|].
  unfold lib_remove. simpl.
  destruct (state j); simpl; try done;
    (destruct (decide (jid' = jid)) as [->|Hne];
     [apply lookup_delete_eq | now rewrite lookup_delete_ne]).
Qed.

Lemma deleteJobRoute_absent q jid jid' :
  jobs q !! jid = None -> jobs (deleteJobRoute q jid').2 !! jid = None.
Proof.
  intros H. pose proof (cancelJob_absent q jid jid' H) as Hc.
  unfold deleteJobRoute. destruct (cancelJob q jid') as [[[]|] q1]; exact Hc.
Qed.

Lemma addJob_absent q d p jid :
  jobId d <> jid -> jobs q !! jid = None -> jobs (addJob q d p).2 !! jid = None.
Proof.
  intros Hne H. unfold addJob, lib_add.
  destruct (optionsError (jobId d) p); simpl; [done|].
  destruct (jobs q !! jobId d); simpl; [done|].
  now rewrite lookup_insert_ne.
Qed.

Lemma workerStep_absent env q w jid :
  jobs q !! jid = None -> jobs (workerStep env q w).1 !! jid = None.
Proof.
  intros H. unfold workerStep.
  destruct (nextJob q) as [j|] eqn:E.
  - destruct (runAttempt env (claim j) w) as [j' w']. simpl.
    apply nextJob_stored in E as [j0 E].
    rewrite lookup_insert_ne; [done|]. intros Heq. rewrite Heq in E. congruence.
  - simpl. now rewrite lookup_fmap, H.
Qed.

Lemma handleEvent_absent ev s jid :
  enqueues jid ev = false ->
  jobs s.1 !! jid = None -> jobs (handleEvent ev s).1 !! jid = None.
Proof.
  destruct s as [q w]. destruct ev as [k|k|d p|env]; simpl; intros Hadm H.
  - done.
  - now apply deleteJobRoute_absent.
  - apply addJob_absent; [|done]. now apply String.eqb_neq.
  - now apply workerStep_absent.
Qed.

Lemma handleEvents_absent evs s jid :
  forallb (fun ev => negb (enqueues jid ev)) evs = true ->
  jobs s.1 !! jid = None -> jobs (handleEvents evs s).1 !! jid = None.
Proof.
  revert s. induction evs as [|ev evs IH]; simpl; intros s Hall H; [done|].
  apply andb_true_iff in Hall as [Hev Hall].
  apply IH; [done|]. apply handleEvent_absent; [|done].
  now apply negb_true_iff.
Qed.

End Events.

(** ** Claims about the job store *)

(** C4. Cancelling a job whose state is already [completed] or [failed]
    answers [CANNOT_CANCEL] and leaves the queue, hence the job record,
    exactly as it was. *)
Theorem cancel_terminal_rejected (q : Queue) (jid : string) (j : Job) :
  jobs q !! jid = Some j ->
  state j = completed \/ state j = failed ->
  deleteJobRoute q jid = (mkResponse 404 false (Some "CANNOT_CANCEL") None, q).
Proof.
  intros Hj Hs. unfold deleteJobRoute.
  rewrite (cancelJob_terminal q jid j Hj); [done|].
  destruct Hs as [-> | ->]; reflexivity.
Qed.

Lemma cancel_terminal_rejected_witness :
  deleteJobRoute Samples.finishedQueue "job-pair"
  = (mkResponse 404 false (Some "CANNOT_CANCEL") None, Samples.finishedQueue).
Proof.
  eapply (cancel_terminal_rejected Samples.finishedQueue "job-pair").
  - vm_compute. reflexivity.
  - left. reflexivity.
Defined.

(** C10. A successful cancellation deletes the job record: the queue
    right after it holds no job under that id, and whatever happens next
    (status queries, cancellations, admissions of other ids, worker turns)
    a status query for the id answers 404 [JOB_NOT_FOUND]; no job in state
    cancelled is ever shown. *)
Theorem cancelled_job_not_found (q q' : Queue) (w : World) (jid : string)
    (resp : Response) (evs : list Event) :
  deleteJobRoute q jid = (resp, q') ->
  statusCode resp = 200 ->
  forallb (fun ev => negb (enqueues jid ev)) evs = true ->
  getJobRoute (handleEvents evs (q', w)).1 jid
  = mkResponse 404 false (Some "JOB_NOT_FOUND") None.
Proof.
  intros Hdel Hok Hevs.
  apply getJobRoute_absent, handleEvents_absent; [done|]. simpl.
  apply (deleteJobRoute_ok_inv _ _ _ _ Hdel), cancelJob_true_inv in Hok.
  subst q'. simpl. apply lookup_delete_eq.
Qed.

Lemma cancelled_job_not_found_witness :
  getJobRoute
    (handleEvents [GetStatus "job-pair"; WorkerTurn Samples.healthy;
                   Enqueue Samples.sarSingle 8; Cancel "job-pair"]
       ((deleteJobRoute Samples.pendingQueue "job-pair").2, emptyWorld)).1
    "job-pair"
  = mkResponse 404 false (Some "JOB_NOT_FOUND") None.
Proof.
  eapply (cancelled_job_not_found Samples.pendingQueue _ emptyWorld "job-pair").
  - vm_compute. reflexivity.
  - reflexivity.
  - reflexivity.
Defined.

(** C2, as stated, fails: the second [addJob] with the id of a stored job
    is not rejected.  It resolves like the first one, and the route built
    on it answers 202 again.  [QueueService.enqueue] has no rejection
    either: should the clock and the random suffix coincide, the second
    call answers the same id and pushes a second entry. *)
Lemma duplicate_enqueue_not_rejected :
  let q1 := (addJob emptyQueue Samples.sarPair 8).2 in
  isOk (addJob q1 Samples.sarPair 8).1 = true /\
  statusCode (postSarIngest (postSarIngest emptyQueue "job-7" "anonymous" "raw/x").2
                            "job-7" "anonymous" "raw/x").1 = 202 /\
  let r1 := (QueueService.enqueue QueueService.emptyRedis 1700000000000 "k3x9q"
               "2023-11-14T22:13:20.000Z" "ingest" "{}").2 in
  let second := QueueService.enqueue r1 1700000000000 "k3x9q"
                  "2023-11-14T22:13:20.000Z" "ingest" "{}" in
  second.1 = "job_1700000000000_k3x9q" /\
  length (default [] (QueueService.lists second.2 !! "queue:ingest")) = 2%nat.
Proof. repeat split; vm_compute; reflexivity. Qed.

(** What a resolved [addJob] tells: the library accepted the options, the
    job object is the one built from them, and the id is stored. *)
Lemma addJob_Ok q d p job :
  (addJob q d p).1 = Ok job ->
  optionsError (jobId d) p = None /\
  job = newJob (jobType d) d (jobId d) p attempts backoffDelay (counter q).
Proof.
  unfold addJob, lib_add.
  destruct (optionsError (jobId d) p); simpl; [discriminate|].
  destruct (jobs q !! jobId d); simpl; intros [= <-]; done.
Qed.

(** The job [addJob] resolves with has made no attempt and has three. *)
Lemma fresh_job q d p job :
  (addJob q d p).1 = Ok job ->
  data job = d /\ isTerminal (state job) = false /\
  attemptsMade job = 0 /\ opt_attempts job = 3 /\ state job <> completed.
Proof.
  intros Hadd. apply addJob_Ok in Hadd as [_ ->]. unfold newJob. simpl.
  destruct (p =? 0)%Z; repeat split; discriminate.
Qed.

Lemma addJob_stores q d p job :
  (addJob q d p).1 = Ok job -> is_Some (jobs (addJob q d p).2 !! jobId d).
Proof.
  unfold addJob, lib_add.
  destruct (optionsError (jobId d) p); simpl; [discriminate|].
  destruct (jobs q !! jobId d) eqn:E; simpl; intros _.
  - rewrite E. eauto.
  - rewrite lookup_insert_eq. eauto.
Qed.

Lemma addJob_resolves q d p :
  optionsError (jobId d) p = None -> isOk (addJob q d p).1 = true.
Proof.
  intros H. unfold addJob, lib_add. rewrite H.
  now destruct (jobs q !! jobId d).
Qed.

Lemma addJob_rejected q d p message :
  optionsError (jobId d) p = Some message ->
  addJob q d p = (Throw ("Failed to add job to queue: " +:+ message), q).
Proof. intros H. unfold addJob, lib_add. now rewrite H. Qed.

Lemma addJob_present q d p :
  is_Some (jobs q !! jobId d) -> (addJob q d p).2 = q.
Proof.
  intros [j Hj]. unfold addJob, lib_add.
  destruct (optionsError (jobId d) p); [done|]. now rewrite Hj.
Qed.

(** An id the library took once passes its checks again at any priority
    up to the limit. *)
Lemma optionsError_priority jid p1 p2 :
  optionsError jid p1 = None -> (p2 <= PRIORITY_LIMIT)%Z ->
  optionsError jid p2 = None.
Proof.
  unfold optionsError. intros H Hp.
  destruct (String.eqb jid "0" || String.prefix "0:" jid); [discriminate|].
  destruct (parseIntEchoes jid); [discriminate|].
  destruct ((0 <? countColons jid)%nat && negb (countColons jid =? 2)%nat);
    [discriminate|].
  destruct (PRIORITY_LIMIT <? p2)%Z eqn:E; [|done].
  apply Z.ltb_lt in E. lia.
Qed.

Lemma optionsError_priority_limit jid p1 p2 :
  optionsError jid p1 = None -> (PRIORITY_LIMIT < p2)%Z ->
  optionsError jid p2 = Some "Priority should be between 0 and 2097152".
Proof.
  unfold optionsError. intros H Hp.
  destruct (String.eqb jid "0" || String.prefix "0:" jid); [discriminate|].
  destruct (parseIntEchoes jid); [discriminate|].
  destruct ((0 <? countColons jid)%nat && negb (countColons jid =? 2)%nat);
    [discriminate|].
  destruct (PRIORITY_LIMIT <? p2)%Z eqn:E; [done|].
  apply Z.ltb_ge in E. lia.
Qed.

(** C2, amended.  Of two [addJob] calls with the same (non-empty) job id,
    the first of which resolved, the second is never rejected as a
    duplicate (the code has no [DUPLICATE_JOB] error).  Whatever its
    outcome it leaves the whole queue, hence the job stored under the
    id, unchanged.  It resolves whenever its priority is within the
    library's limit; above the limit the library refuses the options and
    [addJob] throws [Failed to add job to queue: ...]. *)
Theorem duplicate_enqueue_ignored (q : Queue) (d1 d2 : JobData) (p1 p2 : Z)
    (job1 : Job) :
  jobId d1 = jobId d2 ->
  jobId d1 <> "" ->
  (addJob q d1 p1).1 = Ok job1 ->
  let q1 := (addJob q d1 p1).2 in
  let second := addJob q1 d2 p2 in
  second.2 = q1 /\
  is_Some (jobs q1 !! jobId d1) /\
  jobs second.2 !! jobId d1 = jobs q1 !! jobId d1 /\
  second.1 <> Throw "DUPLICATE_JOB" /\
  ((0 <= p2 <= PRIORITY_LIMIT)%Z -> isOk second.1 = true) /\
  ((PRIORITY_LIMIT < p2)%Z ->
     second.1 = Throw ("Failed to add job to queue: " +:+
                       "Priority should be between 0 and 2097152")).
Proof.
  intros Hid _ Hfirst q1 second.
  pose proof (addJob_stores q d1 p1 job1 Hfirst) as Hstored.
  pose proof (addJob_Ok q d1 p1 job1 Hfirst) as [Hopt _].
  assert (Hq : second.2 = q1).
  { apply addJob_present. now rewrite <- Hid. }
  split; [exact Hq|]. split; [exact Hstored|]. split; [now rewrite Hq|].
  split; [|split].
  - subst second. unfold addJob.
    destruct (lib_add q1 (jobType d2) d2 (jobId d2) p2 attempts backoffDelay)
      as [[j|e] q2]; simpl; discriminate.
  - intros [_ Hp]. apply addJob_resolves. rewrite <- Hid.
    now apply (optionsError_priority _ p1).
  - intros Hp. subst second.
    rewrite (addJob_rejected q1 d2 p2 "Priority should be between 0 and 2097152");
      [reflexivity|].
    rewrite <- Hid. now apply (optionsError_priority_limit _ p1).
Qed.

Lemma duplicate_enqueue_ignored_witness :
  let q1 := (addJob emptyQueue Samples.sarPair 8).2 in
  (addJob q1 Samples.sarPair 5).2 = q1 /\
  isOk (addJob q1 Samples.sarPair 5).1 = true /\
  (addJob q1 Samples.sarPair 3000000).1
  = Throw "Failed to add job to queue: Priority should be between 0 and 2097152".
Proof.
  pose proof (duplicate_enqueue_ignored emptyQueue Samples.sarPair Samples.sarPair
                8 5 (Samples.stored Samples.sarPair 8)
                eq_refl ltac:(discriminate) eq_refl) as H5.
  pose proof (duplicate_enqueue_ignored emptyQueue Samples.sarPair Samples.sarPair
                8 3000000 (Samples.stored Samples.sarPair 8)
                eq_refl ltac:(discriminate) eq_refl) as H3.
  simpl in H5, H3.
  destruct H5 as (Hq & _ & _ & _ & Hok & _).
  destruct H3 as (_ & _ & _ & _ & _ & Hno).
  split; [exact Hq|]. split.
  - apply Hok. unfold PRIORITY_LIMIT. lia.
  - apply Hno. unfold PRIORITY_LIMIT. lia.
Defined.

(** ** Claims about dispatch order *)

(** With nothing in the plain wait list, the job the worker claims has
    the smallest priority number among the prioritized jobs. *)
Lemma nextJob_smallest_priority_number (q : Queue) (j j' : Job) :
  inState waiting q = [] ->
  nextJob q = Some j ->
  j' ∈ inState prioritized q ->
  (opt_priority j <= opt_priority j')%Z.
Proof.
  unfold nextJob. intros -> Hj. simpl in Hj. now apply pickFirst_least.
Qed.

(** C6.  The routes hand their priority (fusion 9, SAR ingest 5) to the
    queue library unchanged, and the library serves the smaller number
    first: of ten jobs stored in a burst, the five priority-5 ingests
    are all claimed before any of the five priority-9 fusion jobs, the
    reverse of "10 = highest". *)
Theorem burst_serves_priority_5_before_9 :
  (fun j => (id j, opt_priority j)) <$> dispatchOrder 10 Samples.burst
  = [("e1", 5); ("e2", 5); ("e3", 5); ("e4", 5); ("e5", 5);
     ("f1", 9); ("f2", 9); ("f3", 9); ("f4", 9); ("f5", 9)].
Proof. vm_compute. reflexivity. Qed.

(** ** Claims about retries *)







(** ** Reasoning about asynchronous code *)

Section MonadFacts.

Context {A B : Type}.
Implicit Types (m : M A) (k : A -> M B) (w : World).

Lemma rejects_fails {C} e (c : M C) : rejects e c -> fails c.
Proof. intros H w. now rewrite H. Qed.

Lemma fails_throw e : fails (throw e : M A).
Proof. intros w. reflexivity. Qed.

Lemma fails_bind_l m k : fails m -> fails (m ≫= k).
Proof.
  intros H w. specialize (H w). unfold mbind, M_bind, bind.
  destruct (m w) as [[a|e] w']; [discriminate|reflexivity].
Qed.

Lemma fails_bind_r m k : (forall a, fails (k a)) -> fails (m ≫= k).
Proof.
  intros H w. unfold mbind, M_bind, bind.
  destruct (m w) as [[a|e] w']; [apply H|reflexivity].
Qed.

Lemma fails_tryCatch m (h : string -> M A) :
  fails m -> (forall e, fails (h e)) -> fails (tryCatch m h).
Proof.
  intros Hm Hh w. specialize (Hm w). unfold tryCatch.
  destruct (m w) as [[a|e] w']; [discriminate|apply Hh].
Qed.

End MonadFacts.

Lemma fails_rethrow {A} (line e : string) : fails (logLine line ;; throw e : M A).
Proof. intros w. reflexivity. Qed.

Ltac unfold_m :=
  unfold logLine, catchWith, settle, lift, modify, mbind, M_bind, mret, M_ret,
         tryCatch, bind, ret, throw in *.

(** ** The SAR processor *)

Section SarFacts.

Variable env : Env.

Lemma sarFetch_progress job urls : forall i w,
  progress (sarFetch env job i urls w).2 = progress w.
Proof.
  induction urls as [|u urls IH]; intros i w; [reflexivity|].
  simpl. unfold downloadFile, writeFile. unfold_m.
  destruct (env_download env u); [|reflexivity].
  destruct (env_writeFile env (sarTempPath env job i)); [|reflexivity].
  simpl. fold (bind (A:=list string) (B:=list string)).
  match goal with |- context [sarFetch env job (S i) urls ?w1] =>
    specialize (IH (S i) w1); destruct (sarFetch env job (S i) urls w1) as [[ps|e] w2]
  end; simpl in *; exact IH.
Qed.

Lemma unlinkAll_progress paths : forall w,
  (unlinkAll env paths w).1 = Ok tt /\
  progress (unlinkAll env paths w).2 = progress w.
Proof.
  induction paths as [|p paths IH]; intros w; [split; reflexivity|].
  simpl. unfold unlink. unfold_m.
  destruct (env_unlink env p); simpl;
    match goal with |- context [unlinkAll env paths ?w1] =>
      destruct (IH w1) as [E1 E2]; rewrite E1, E2
    end; split; reflexivity.
Qed.

(** With no source and an operation outside the switch, the processor
    reaches the [default] case whenever the steps before it succeed. *)
Lemma sarSwitch_unknown job op paths :
  String.eqb op "interferometry" = false ->
  String.eqb op "coherence" = false ->
  String.eqb op "change_detection" = false ->
  sarSwitch env job op paths = throw ("Unknown SAR operation: " +:+ op).
Proof. unfold sarSwitch. now intros -> -> ->. Qed.

Lemma processSARJob_unknown_fails d :
  String.eqb (operation d) "interferometry" = false ->
  String.eqb (operation d) "coherence" = false ->
  String.eqb (operation d) "change_detection" = false ->
  fails (processSARJob env d).
Proof.
  intros H1 H2 H3. unfold processSARJob.
  apply fails_tryCatch; [|intros e; apply fails_rethrow].
  do 2 (apply fails_bind_r; intros _). apply fails_bind_r; intros paths.
  apply fails_bind_r; intros _. apply fails_bind_l.
  rewrite sarSwitch_unknown by assumption. apply fails_throw.
Qed.

End SarFacts.

(** ** The life of a job whose handler always rejects *)

Section Lifecycle.

Variable env : Env.

Implicit Types (j : Job) (w : World).

Lemma lifecycle_terminal n j w :
  isTerminal (state j) = true -> lifecycle env n j w = (j, w).
Proof. intros H. destruct n; simpl; [reflexivity|]. now rewrite H. Qed.

Lemma data_claim_promote j : data (claim (promote j)) = data j.
Proof. unfold claim, promote, setState. now destruct (state j). Qed.

Lemma runAttempt_data j w : data (runAttempt env j w).1 = data j.
Proof.
  unfold runAttempt. destruct (processJob env (data j) w) as [[v|e] w']; simpl.
  - reflexivity.
  - unfold moveToFailed. simpl.
    now destruct (attemptsMade j + 1 <? opt_attempts j)%Z.
Qed.

Lemma runAttempt_fails_state j w :
  fails (processJob env (data j)) ->
  state (runAttempt env j w).1 <> completed.
Proof.
  intros H. specialize (H w). unfold runAttempt.
  destruct (processJob env (data j) w) as [[v|e] w']; simpl in *; [discriminate|].
  unfold moveToFailed. simpl.
  now destruct (attemptsMade j + 1 <? opt_attempts j)%Z.
Qed.

(** A job whose handler cannot succeed never reaches [completed]. *)
Lemma lifecycle_never_completes n : forall j w,
  fails (processJob env (data j)) ->
  state j <> completed ->
  state (lifecycle env n j w).1 <> completed.
Proof.
  induction n as [|n IH]; intros j w Hf Hs; simpl; [exact Hs|].
  destruct (isTerminal (state j)); [exact Hs|].
  pose proof (runAttempt_data (claim (promote j)) w) as Hd.
  pose proof (runAttempt_fails_state (claim (promote j)) w) as Hc.
  rewrite data_claim_promote in Hd, Hc.
  destruct (runAttempt env (claim (promote j)) w) as [j' w']. simpl in *.
  apply IH; [now rewrite Hd | now apply Hc].
Qed.

Lemma runAttempt_rejects e j w :
  rejects e (processJob env (data j)) ->
  exists v w',
    runAttempt env j w = (moveToFailed e (setProgress v j), w').
Proof.
  intros H. specialize (H w). unfold runAttempt.
  destruct (processJob env (data j) w) as [r w']. simpl in H. subst r.
  eauto.
Qed.

(** A fresh job with three attempts whose handler always rejects with
    [e] is failed with reason [e] once the three attempts are used up,
    and stays so. *)
Lemma lifecycle_always_rejects e j w n :
  rejects e (processJob env (data j)) ->
  isTerminal (state j) = false ->
  attemptsMade j = 0 ->
  opt_attempts j = 3 ->
  (3 <= n)%nat ->
  let j' := (lifecycle env n j w).1 in
  state j' = failed /\ failedReason j' = Some e /\ attemptsMade j' = 3.
Proof.
  intros He Ht Ha Ho Hn. do 3 (destruct n as [|n]; [lia|]).
  cbn [lifecycle]. rewrite Ht.
  destruct (runAttempt_rejects e (claim (promote j)) w) as (v1 & w1 & ->);
    [now rewrite data_claim_promote|].
  set (j1 := moveToFailed e (setProgress v1 (claim (promote j)))).
  assert (H1 : state j1 = delayed /\ attemptsMade j1 = 1 /\ opt_attempts j1 = 3
               /\ data j1 = data j).
  { unfold j1, moveToFailed, setProgress, claim, promote, setState.
    destruct (state j); simpl; rewrite Ha, Ho; simpl; auto. }
  destruct H1 as (S1 & A1 & O1 & D1). rewrite S1. simpl.
  destruct (runAttempt_rejects e (claim (promote j1)) w1) as (v2 & w2 & ->);
    [now rewrite data_claim_promote, D1|].
  set (j2 := moveToFailed e (setProgress v2 (claim (promote j1)))).
  assert (H2 : state j2 = delayed /\ attemptsMade j2 = 2 /\ opt_attempts j2 = 3
               /\ data j2 = data j).
  { unfold j2, moveToFailed, setProgress, claim, promote, setState.
    rewrite S1; simpl; rewrite A1, O1; simpl; auto. }
  destruct H2 as (S2 & A2 & O2 & D2). rewrite S2. simpl.
  destruct (runAttempt_rejects e (claim (promote j2)) w2) as (v3 & w3 & ->);
    [now rewrite data_claim_promote, D2|].
  set (j3 := moveToFailed e (setProgress v3 (claim (promote j2)))).
  assert (H3 : state j3 = failed /\ failedReason j3 = Some e /\ attemptsMade j3 = 3).
  { unfold j3, moveToFailed, setProgress, claim, promote, setState.
    rewrite S2; simpl; rewrite A2, O2; simpl; auto. }
  rewrite lifecycle_terminal by (destruct H3 as [-> _]; reflexivity).
  exact H3.
Qed.

End Lifecycle.

Section Rethrow.

Context {A : Type}.

Lemma rejects_rethrow (line e : string) (m : M A) :
  rejects e m -> rejects e (tryCatch m (fun e => logLine line ;; throw e)).
Proof.
  intros H w. specialize (H w). unfold tryCatch.
  destruct (m w) as [r w']. simpl in H. now subst r.
Qed.

Lemma fails_rethrown (line : string) (m : M A) :
  fails m -> fails (tryCatch m (fun e => logLine line ;; throw e)).
Proof. intros H. apply fails_tryCatch; [exact H|]. intros e. apply fails_rethrow. Qed.

End Rethrow.

Section Dispatching.

Variable env : Env.

Lemma processJob_sar d :
  jobType d = "sar" ->
  processJob env d
  = tryCatch (processSARJob env d)
             (fun e => logLine "Job processing failed" ;; throw e).
Proof. intros H. unfold processJob. now rewrite H. Qed.

Lemma sarFetch_succeeds job urls : forall i w,
  (forall url, env_download env url = Fulfilled) ->
  (forall path, env_writeFile env path = Fulfilled) ->
  exists paths w', sarFetch env job i urls w = (Ok paths, w') /\
                   length paths = length urls.
Proof.
  induction urls as [|u urls IH]; intros i w Hd Hw; simpl.
  - exists [], w. split; reflexivity.
  - unfold downloadFile, writeFile. unfold_m. rewrite Hd, Hw. simpl.
    match goal with |- context [sarFetch env job (S i) urls ?w1] =>
      destruct (IH (S i) w1 Hd Hw) as (ps & w2 & -> & Hl)
    end.
    eexists _, _. split; [reflexivity|]. simpl. now rewrite Hl.
Qed.

(** Past the fetch, the processor is rejected with whatever the switch
    throws. *)
Lemma processSARJob_switch_rejects d e :
  sarFetchSucceeds env ->
  (forall paths, length paths = length (default [] (sourceUrls d)) ->
                 rejects e (sarSwitch env (jobId d) (operation d) paths)) ->
  rejects e (processSARJob env d).
Proof.
  intros (P10 & Hmk & Hd & Hw & P30) Hsw. unfold processSARJob.
  apply rejects_rethrow. intros w.
  unfold updateProgress, mkdir. unfold_m. rewrite P10, Hmk. simpl.
  match goal with |- context [sarFetch env ?job 0%nat ?urls ?w1] =>
    destruct (sarFetch_succeeds job urls 0%nat w1 Hd Hw) as (ps & w2 & -> & Hl)
  end.
  rewrite P30. simpl.
  match goal with |- context [sarSwitch env ?job ?op ps ?w3] =>
    pose proof (Hsw ps Hl w3) as Hs;
    destruct (sarSwitch env job op ps w3) as [r w4]
  end.
  simpl in Hs. now subst r.
Qed.

Lemma sarSwitch_too_few job paths :
  (length paths < 2)%nat ->
  rejects "Interferometry requires at least 2 SAR images"
          (sarSwitch env job "interferometry" paths).
Proof.
  intros Hl w. unfold sarSwitch, sarCase. simpl. unfold_m.
  rewrite bool_decide_eq_true_2 by exact Hl. reflexivity.
Qed.

End Dispatching.

(** ** What a rejected attempt leaves behind *)

Section AttemptWorld.

Variable env : Env.

Implicit Types (j : Job) (w : World).

Lemma sarFetch_logs job urls : forall i w,
  logs (sarFetch env job i urls w).2 = logs w.
Proof.
  induction urls as [|u urls IH]; intros i w; [reflexivity|].
  simpl. unfold downloadFile, writeFile. unfold_m.
  destruct (env_download env u); [|reflexivity].
  destruct (env_writeFile env (sarTempPath env job i)); [|reflexivity].
  simpl. fold (bind (A:=list string) (B:=list string)).
  match goal with |- context [sarFetch env job (S i) urls ?w1] =>
    specialize (IH (S i) w1); destruct (sarFetch env job (S i) urls w1) as [[ps|e] w2]
  end; simpl in *; exact IH.
Qed.

(** Past the fetch, a switch that throws without reporting or logging
    leaves the processor rejected with the same error, the two
    checkpoints 10 and 30 reported and one line logged. *)
Lemma processSARJob_switch_throws d e :
  sarFetchSucceeds env ->
  (forall paths w, length paths = length (default [] (sourceUrls d)) ->
     sarSwitch env (jobId d) (operation d) paths w = (Throw e, w)) ->
  forall w,
    (processSARJob env d w).1 = Throw e /\
    progress (processSARJob env d w).2 = (progress w ++ [10; 30])%list /\
    logs (processSARJob env d w).2 = (logs w ++ ["SAR processing failed"])%list.
Proof.
  intros (P10 & Hmk & Hd & Hw & P30) Hsw w. unfold processSARJob.
  unfold updateProgress, mkdir. unfold_m. rewrite P10, Hmk. simpl.
  match goal with |- context [sarFetch env ?job 0%nat ?urls ?w1] =>
    pose proof (sarFetch_progress env job urls 0%nat w1) as Hpr;
    pose proof (sarFetch_logs job urls 0%nat w1) as Hlg;
    destruct (sarFetch_succeeds env job urls 0%nat w1 Hd Hw) as (ps & w2 & E & Hl);
    rewrite E in Hpr, Hlg |- *
  end.
  simpl in Hpr, Hlg. rewrite P30. simpl.
  rewrite (Hsw ps _ Hl). simpl. rewrite Hpr, Hlg.
  rewrite <- app_assoc. repeat split; reflexivity.
Qed.

Lemma sarSwitch_too_few_throws job paths w :
  (length paths < 2)%nat ->
  sarSwitch env job "interferometry" paths w
  = (Throw "Interferometry requires at least 2 SAR images", w).
Proof.
  intros Hl. unfold sarSwitch, sarCase. simpl. unfold_m.
  rewrite bool_decide_eq_true_2 by exact Hl. reflexivity.
Qed.

Lemma reported_app_eq w w' (tr : list Z) :
  progress w' = (progress w ++ tr)%list -> reported w w' = tr.
Proof. intros H. unfold reported. rewrite H. apply drop_app_length. Qed.

(** While a fresh job whose handler always rejects has attempts left, a
    rejected attempt leaves it delayed for a retry. *)
Lemma lifecycle_rejects_retried e j w n :
  rejects e (processJob env (data j)) ->
  isTerminal (state j) = false ->
  attemptsMade j = 0 ->
  opt_attempts j = 3 ->
  (1 <= n < 3)%nat ->
  let j' := (lifecycle env n j w).1 in
  state j' = delayed /\ failedReason j' = Some e /\ attemptsMade j' = Z.of_nat n.
Proof.
  intros He Ht Ha Ho Hn.
  destruct n as [|n]; [lia|]. cbn [lifecycle]. rewrite Ht.
  destruct (runAttempt_rejects env e (claim (promote j)) w) as (v1 & w1 & ->);
    [now rewrite data_claim_promote|].
  set (j1 := moveToFailed e (setProgress v1 (claim (promote j)))).
  assert (H1 : state j1 = delayed /\ failedReason j1 = Some e /\
               attemptsMade j1 = 1 /\ opt_attempts j1 = 3 /\ data j1 = data j).
  { unfold j1, moveToFailed, setProgress, claim, promote, setState.
    destruct (state j); simpl; rewrite Ha, Ho; simpl; auto. }
  destruct H1 as (S1 & F1 & A1 & O1 & D1).
  destruct n as [|n]; [simpl; auto|].
  destruct n as [|n]; [|lia]. cbn [lifecycle]. rewrite S1. simpl.
  destruct (runAttempt_rejects env e (claim (promote j1)) w1) as (v2 & w2 & ->);
    [now rewrite data_claim_promote, D1|].
  simpl. unfold moveToFailed, setProgress, claim, promote, setState.
  rewrite S1; simpl; rewrite A1, O1; simpl; auto.
Qed.
End AttemptWorld.

(** ** Claims about the SAR pipeline *)

(** C9.  A SAR job built by the ingest route (operation [ingest]) or by
    the change route (operation [change]) matches no case of the SAR
    processor's switch: no attempt of it can succeed, an attempt that gets
    as far as the switch throws "Unknown SAR operation: ...", and the job
    never reaches [completed]. *)
Theorem sar_ingest_and_change_never_complete (env : Env) (d : JobData)
    (jid uid src before_dataset after_dataset : string) :
  d = sarIngestData jid uid src \/
  d = sarChangeData jid uid before_dataset after_dataset ->
  (forall w, isOk (processJob env d w).1 = false) /\
  (sarFetchSucceeds env ->
   forall w, (processJob env d w).1
             = Throw ("Unknown SAR operation: " +:+ operation d)) /\
  (forall q priority job n w,
     (addJob q d priority).1 = Ok job ->
     state (lifecycle env n job w).1 <> completed).
Proof.
  intros Hd.
  assert (Hty : jobType d = "sar") by (destruct Hd as [-> | ->]; reflexivity).
  assert (Hop : String.eqb (operation d) "interferometry" = false /\
                String.eqb (operation d) "coherence" = false /\
                String.eqb (operation d) "change_detection" = false)
    by (destruct Hd as [-> | ->]; repeat split; reflexivity).
  destruct Hop as (H1 & H2 & H3).
  assert (Hfails : fails (processJob env d)).
  { rewrite processJob_sar by exact Hty. apply fails_rethrown.
    now apply processSARJob_unknown_fails. }
  split; [exact Hfails|]. split.
  - intros Hfetch. change (rejects ("Unknown SAR operation: " +:+ operation d)
                                   (processJob env d)).
    rewrite processJob_sar by exact Hty. apply rejects_rethrow.
    apply processSARJob_switch_rejects; [exact Hfetch|].
    intros paths _ w. now rewrite sarSwitch_unknown.
  - intros q priority job n w Hadd.
    destruct (fresh_job q d priority job Hadd) as (Hdata & _ & _ & _ & Hstate).
    apply lifecycle_never_completes; [now rewrite Hdata | exact Hstate].
Qed.

Lemma sar_ingest_and_change_never_complete_witness :
  let d := sarIngestData "job-9" "anonymous" "minio://geoagent-hypermodal/raw/job-9/s1.tif" in
  (forall w, isOk (processJob Samples.healthy d w).1 = false) /\
  (processJob Samples.healthy d emptyWorld).1 = Throw "Unknown SAR operation: ingest" /\
  state (lifecycle Samples.healthy 5 (Samples.stored d 5) emptyWorld).1 <> completed.
Proof.
  intros d.
  destruct (sar_ingest_and_change_never_complete Samples.healthy d
              "job-9" "anonymous" "minio://geoagent-hypermodal/raw/job-9/s1.tif"
              "" "" (or_introl eq_refl)) as (H1 & H2 & H3).
  split; [exact H1|]. split.
  - apply H2. repeat split; reflexivity.
  - apply (H3 emptyQueue 5). reflexivity.
Defined.

(** C3, as stated, fails.  An interferometry job on a single image is not
    failed at once: its first attempt leaves it delayed for a retry, and
    once the three attempts are used up it is failed with [attemptsMade]
    equal to 3 and a reason that is not "at least 2 images required". *)
Lemma single_image_interferometry_is_retried :
  let job := Samples.stored Samples.sarSingle 8 in
  let first := (lifecycle Samples.healthy 1 job emptyWorld).1 in
  let final := (lifecycle Samples.healthy 10 job emptyWorld).1 in
  state first = delayed /\ attemptsMade first = 1 /\
  state final = failed /\ attemptsMade final = 3 /\
  failedReason final = Some "Interferometry requires at least 2 SAR images" /\
  failedReason final <> Some "at least 2 images required".
Proof. vm_compute. repeat split; try reflexivity. discriminate. Qed.

(** C3, amended.  For every SAR interferometry job with fewer than two
    source images whose fetch succeeds, every attempt reports progress 10
    and 30 and then throws "Interferometry requires at least 2 SAR
    images".  The error is an ordinary one, so the job goes through the
    retry policy: after the first and after the second attempt it is
    delayed for a retry, and it reaches [failed] with that reason only
    when its 3 attempts are used up ([attemptsMade] = 3). *)
Theorem single_image_interferometry_fails (env : Env) (d : JobData) :
  jobType d = "sar" ->
  operation d = "interferometry" ->
  (length (default [] (sourceUrls d)) < 2)%nat ->
  sarFetchSucceeds env ->
  (forall w, (processJob env d w).1
             = Throw "Interferometry requires at least 2 SAR images" /\
             reported w (processJob env d w).2 = [10; 30]) /\
  (forall q priority job n w,
     (addJob q d priority).1 = Ok job ->
     (1 <= n < 3)%nat ->
     let j' := (lifecycle env n job w).1 in
     state j' = delayed /\
     failedReason j' = Some "Interferometry requires at least 2 SAR images" /\
     attemptsMade j' = Z.of_nat n) /\
  (forall q priority job n w,
     (addJob q d priority).1 = Ok job ->
     (3 <= n)%nat ->
     let j' := (lifecycle env n job w).1 in
     state j' = failed /\
     failedReason j' = Some "Interferometry requires at least 2 SAR images" /\
     attemptsMade j' = 3).
Proof.
  intros Hty Hop Hlen Hfetch.
  assert (Hsar : forall w,
            (processSARJob env d w).1
            = Throw "Interferometry requires at least 2 SAR images" /\
            progress (processSARJob env d w).2 = (progress w ++ [10; 30])%list /\
            logs (processSARJob env d w).2
            = (logs w ++ ["SAR processing failed"])%list).
  { apply processSARJob_switch_throws; [exact Hfetch|].
    intros paths w Hl. rewrite Hop. apply sarSwitch_too_few_throws. now rewrite Hl. }
  assert (Hatt : forall w,
            (processJob env d w).1
            = Throw "Interferometry requires at least 2 SAR images" /\
            reported w (processJob env d w).2 = [10; 30]).
  { intros w. rewrite processJob_sar by exact Hty. unfold tryCatch.
    destruct (Hsar w) as (E & Hpr & _).
    destruct (processSARJob env d w) as [r w']. simpl in E, Hpr. subst r.
    split; [reflexivity|]. apply reported_app_eq. exact Hpr. }
  assert (Hrej : rejects "Interferometry requires at least 2 SAR images"
                         (processJob env d)) by (intros w; apply Hatt).
  split; [exact Hatt|]. split.
  - intros q priority job n w Hadd Hn.
    destruct (fresh_job q d priority job Hadd) as (Hdata & Hst & Ham & Hat & _).
    apply lifecycle_rejects_retried; try assumption. now rewrite Hdata.
  - intros q priority job n w Hadd Hn.
    destruct (fresh_job q d priority job Hadd) as (Hdata & Hst & Ham & Hat & _).
    apply lifecycle_always_rejects; try assumption. now rewrite Hdata.
Qed.

Lemma single_image_interferometry_fails_witness :
  ((processJob Samples.healthy Samples.sarSingle emptyWorld).1
   = Throw "Interferometry requires at least 2 SAR images" /\
   reported emptyWorld (processJob Samples.healthy Samples.sarSingle emptyWorld).2
   = [10; 30]) /\
  state (lifecycle Samples.healthy 1
           (Samples.stored Samples.sarSingle 8) emptyWorld).1 = delayed /\
  attemptsMade (lifecycle Samples.healthy 3
                  (Samples.stored Samples.sarSingle 8) emptyWorld).1 = 3.
Proof.
  assert (Hadd : (addJob emptyQueue Samples.sarSingle 8).1
                 = Ok (Samples.stored Samples.sarSingle 8))
    by (vm_compute; reflexivity).
  destruct (single_image_interferometry_fails Samples.healthy Samples.sarSingle)
    as (H1 & H2 & H3).
  - reflexivity.
  - reflexivity.
  - simpl. lia.
  - repeat split; reflexivity.
  - split; [apply H1|]. split.
    + apply (H2 emptyQueue 8 (Samples.stored Samples.sarSingle 8) 1%nat emptyWorld);
        [exact Hadd | lia].
    + apply (H3 emptyQueue 8 (Samples.stored Samples.sarSingle 8) 3%nat emptyWorld);
        [exact Hadd | lia].
Defined.

(** ** Claims about cleanup *)

(** C7.  When the ML call of a SAR job fails after its two images have
    been fetched, [processSARJob] rethrows without unlinking: both
    temporary files are still in working storage when the attempt ends.
    The cleanup loop stands on the success path only. *)
Theorem sar_failure_leaves_temp_files :
  processJob Samples.mlDown Samples.sarPair emptyWorld
  = (Throw "timeout of 60000ms exceeded",
     mkWorld [10; 30]
             ["/tmp/geoagent/job-pair_sar_0.tif"; "/tmp/geoagent/job-pair_sar_1.tif"]
             [] [] ["SAR processing failed"; "Job processing failed"]).
Proof. vm_compute. reflexivity. Qed.

(** The LiDAR handler, by contrast, unlinks in its [catch] as well: on
    every path, failing or not, the temporary file is gone when it
    returns, provided the unlink itself goes through. *)
Lemma lidar_cleans_up_on_every_path (env : Env) (d : JobData) (w : World) :
  env_unlink env (lidarTempPath env d) = Fulfilled ->
  lidarTempPath env d ∉ tempFiles (handleLiDARProcessing env d w).2.
Proof.
  intros Hun.
  assert (Hgone : forall l : list string,
             lidarTempPath env d ∉ filter (fun p => p ≠ lidarTempPath env d) l).
  { intros l Hin. apply list_elem_of_filter in Hin as [Hne _]. now apply Hne. }
  unfold handleLiDARProcessing, updateProgress, downloadFile, mkdir, writeFile,
    uploadFile, storeAnalysis, mlCall, unlink.
  unfold_m. rewrite Hun.
  repeat (case_match; simpl in *; simplify_eq; try apply Hgone).
Qed.

(** ** Progress reports *)



Section ProgressFacts.

Variable env : Env.






End ProgressFacts.

Section ProgressOfJobs.

Variable env : Env.





End ProgressOfJobs.

(** ** Claims about progress *)



(** ** The Knowledge Sink *)

Section SinkFacts.

Variable env : Env.
Variable msg : string.
Hypothesis Honly : onlySinkFails env msg.

Ltac run_healthy :=
  destruct Honly as (Hp & Hmk & Hdl & Hwr & Hml & Hup & Hst);
  intros w;
  unfold updateProgress, downloadFile, mkdir, writeFile, uploadFile,
         storeAnalysis, mlCall, unlink;
  unfold_m;
  repeat first
    [ rewrite Hp | rewrite Hmk | rewrite Hdl | rewrite Hwr | rewrite Hup
    | rewrite Hst
    | match goal with
      | |- context [env_ml env ?m] =>
          let E := fresh "E" in
          pose proof (Hml m) as E; destruct (env_ml env m); [clear E|discriminate E]
      end
    | progress simpl ];
  repeat (case_match; simpl in *; simplify_eq);
  try reflexivity;
  try (split; reflexivity);
  try match goal with
      | H : env_upload env _ = Rejected _ |- _ => rewrite Hup in H; discriminate H
      end.

Lemma sink_rejects_spectral d :
  operation d ∈ ["unmix"; "identify"; "vegetation"; "minerals"; "water_quality"] ->
  rejectsLogging msg ["Spectral processing failed"] (processSpectralJob env d).
Proof.
  intros Hop.
  unfold processSpectralJob, spectralSwitch, handleUnmixing,
    handleMaterialIdentification, handleVegetationAnalysis,
    handleMineralMapping, handleWaterQualityAnalysis, spectralHandler.
  repeat (apply elem_of_cons in Hop as [->|Hop]); [..|inversion Hop];
    run_healthy.
Qed.

Lemma sink_rejects_thermal d :
  operation d ∈ ["heatmap"; "anomaly_detection"; "temperature_extract"] ->
  rejectsLogging msg ["Thermal processing failed"] (processThermalJob env d).
Proof.
  intros Hop.
  unfold processThermalJob, thermalSwitch, handleHeatmap,
    handleAnomalyDetection, handleTemperatureExtraction, thermalImageHandler.
  repeat (apply elem_of_cons in Hop as [->|Hop]); [..|inversion Hop];
    run_healthy.
Qed.

Lemma sink_rejects_lidar d :
  operation d = "process" ->
  rejectsLogging msg ["LiDAR processing failed"] (processLiDARJob env d).
Proof.
  intros Hop. unfold processLiDARJob, handleLiDARProcessing. rewrite Hop.
  run_healthy.
Qed.

Lemma sink_rejects_sar d :
  operation d ∈ ["interferometry"; "coherence"; "change_detection"] ->
  (2 <= length (default [] (sourceUrls d)))%nat ->
  rejectsLogging msg ["SAR processing failed"] (processSARJob env d).
Proof.
  intros Hop Hlen.
  assert (Hsw : forall paths w0,
             length paths = length (default [] (sourceUrls d)) ->
             sarSwitch env (jobId d) (operation d) paths w0 = (Throw msg, w0)).
  { intros paths w0 Hl. unfold sarSwitch, sarCase.
    assert (Hguard : bool_decide (length paths < 2)%nat = false)
      by (apply bool_decide_eq_false_2; lia).
    revert w0.
    repeat (apply elem_of_cons in Hop as [->|Hop]); [..|inversion Hop];
      simpl; rewrite Hguard; run_healthy. }
  intros w.
  destruct (processSARJob_switch_throws env d msg) with (w := w) as (E & _ & Hlg);
    [|exact Hsw|split; assumption].
  destruct Honly as (Hp & Hmk & Hdl & Hwr & _). repeat split; auto.
Qed.

Lemma rejectsLogging_rethrow {A} (line e : string) (lines : list string) (m : M A) :
  rejectsLogging e lines m ->
  rejectsLogging e (lines ++ [line])
                 (tryCatch m (fun e => logLine line ;; throw e)).
Proof.
  intros H w. destruct (H w) as [E Hl]. unfold tryCatch.
  destruct (m w) as [r w']. simpl in E, Hl. subst r. unfold_m. simpl.
  rewrite Hl, <- app_assoc. split; reflexivity.
Qed.

Lemma sink_rejects_processJob d :
  submitsToSink d = true ->
  rejectsLogging msg [failureLine (jobType d); "Job processing failed"]
                 (processJob env d).
Proof.
  unfold submitsToSink, processJob, failureLine. intros H.
  apply (rejectsLogging_rethrow "Job processing failed" msg [_]).
  destruct (String.eqb (jobType d) "lidar").
  { apply sink_rejects_lidar. now apply String.eqb_eq. }
  destruct (String.eqb (jobType d) "spectral").
  { apply sink_rejects_spectral. now apply bool_decide_eq_true in H. }
  destruct (String.eqb (jobType d) "sar").
  { apply andb_true_iff in H as [H1 H2].
    apply bool_decide_eq_true in H1, H2. now apply sink_rejects_sar. }
  destruct (String.eqb (jobType d) "thermal").
  { apply sink_rejects_thermal. now apply bool_decide_eq_true in H. }
  discriminate.
Qed.

End SinkFacts.

Section SinkDown.

Variable env : Env.
Variable msg : string.
Hypothesis Hst : forall kind, env_store env kind = Rejected msg.

Ltac run_sink_down :=
  intros w;
  unfold updateProgress, downloadFile, mkdir, writeFile, uploadFile,
         storeAnalysis, mlCall, unlink;
  unfold_m; rewrite ?Hst;
  repeat (case_match; simpl in *; simplify_eq);
  reflexivity.

Lemma sink_down_spectral d : fails (processSpectralJob env d).
Proof.
  unfold processSpectralJob, spectralSwitch, handleUnmixing,
    handleMaterialIdentification, handleVegetationAnalysis,
    handleMineralMapping, handleWaterQualityAnalysis, spectralHandler.
  run_sink_down.
Qed.

Lemma sink_down_thermal d : fails (processThermalJob env d).
Proof.
  unfold processThermalJob, thermalSwitch, handleHeatmap,
    handleAnomalyDetection, handleTemperatureExtraction, thermalImageHandler.
  run_sink_down.
Qed.

Lemma sink_down_lidar_processing d : fails (handleLiDARProcessing env d).
Proof. unfold handleLiDARProcessing. run_sink_down. Qed.

Lemma sink_down_sarSwitch job op paths : fails (sarSwitch env job op paths).
Proof.
  unfold sarSwitch, sarCase, mlCall, storeAnalysis. intros w. unfold_m.
  rewrite Hst. repeat (case_match; simpl in *; simplify_eq); reflexivity.
Qed.

Lemma sink_down_sar d : fails (processSARJob env d).
Proof.
  unfold processSARJob. apply fails_rethrown.
  do 2 (apply fails_bind_r; intros _). apply fails_bind_r; intros paths.
  apply fails_bind_r; intros _. apply fails_bind_l, sink_down_sarSwitch.
Qed.

(** With GraphRAG down, an attempt can only succeed for a job whose
    handler never calls it. *)
Lemma sink_down_success_is_sinkless d w :
  isOk (processJob env d w).1 = true ->
  jobType d = "fusion" \/ (jobType d = "lidar" /\ operation d = "ingest").
Proof.
  intros Hok.
  destruct (String.eqb (jobType d) "lidar") eqn:Hl.
  { destruct (String.eqb (operation d) "ingest") eqn:Hi.
    { right. split; now apply String.eqb_eq. }
    exfalso. revert Hok. unfold processJob. rewrite Hl.
    assert (F : fails (tryCatch (processLiDARJob env d)
                         (fun e => logLine "Job processing failed" ;; throw e))).
    { apply fails_rethrown. unfold processLiDARJob. apply fails_rethrown.
      apply fails_bind_r; intros _. rewrite Hi.
      destruct (String.eqb (operation d) "process");
        [apply sink_down_lidar_processing | apply fails_throw]. }
    rewrite (F w). discriminate. }
  destruct (String.eqb (jobType d) "fusion") eqn:Hf.
  { left. now apply String.eqb_eq. }
  exfalso. revert Hok. unfold processJob. rewrite Hl.
  assert (F : fails (tryCatch
                 (if String.eqb (jobType d) "spectral" then processSpectralJob env d
                  else if String.eqb (jobType d) "sar" then processSARJob env d
                  else if String.eqb (jobType d) "thermal" then processThermalJob env d
                  else if String.eqb (jobType d) "fusion" then processFusionJob env d
                  else throw ("Unknown job type: " +:+ jobType d))
                 (fun e => logLine "Job processing failed" ;; throw e))).
  { apply fails_rethrown. rewrite Hf.
    destruct (String.eqb (jobType d) "spectral"); [apply sink_down_spectral|].
    destruct (String.eqb (jobType d) "sar"); [apply sink_down_sar|].
    destruct (String.eqb (jobType d) "thermal"); [apply sink_down_thermal|].
    apply fails_throw. }
  rewrite (F w). discriminate.
Qed.

End SinkDown.

(** ** Claims about the Knowledge Sink *)

(** C1, as stated, fails.  With GraphRAG refusing the connection and
    everything else answering, the attempt of a SAR job on two images is
    rejected with the store's error after fetch and compute went through,
    and the job ends in [failed], not [completed]. *)
Lemma sink_failure_fails_sar_job :
  (processJob Samples.sinkDown Samples.sarPair emptyWorld).1
  = Throw "connect ECONNREFUSED nexus-graphrag:8090" /\
  progress (processJob Samples.sinkDown Samples.sarPair emptyWorld).2 = [10; 30]%Z /\
  let final := (lifecycle Samples.sinkDown 10
                  (Samples.stored Samples.sarPair 8) emptyWorld).1 in
  state final = failed /\
  failedReason final = Some "connect ECONNREFUSED nexus-graphrag:8090".
Proof. vm_compute. repeat split; reflexivity. Qed.

(** C1, amended.  For every job whose handler submits to the Knowledge
    Sink and whose fetch, compute and persist stages succeed, a failure of
    the GraphRAG store call fails the attempt: the handler rethrows the
    store's error, which is logged as a processing failure (the
    processor's line, then "Job processing failed").  The attempt is
    retried like any other failure: after the first and after the second
    attempt the job is delayed for a retry, and once the three attempts
    are used up its terminal state is [failed] with that error as its
    reason. *)
Theorem sink_failure_fails_the_job (env : Env) (msg : string) (d : JobData) :
  onlySinkFails env msg ->
  submitsToSink d = true ->
  (forall w, (processJob env d w).1 = Throw msg /\
             logs (processJob env d w).2
             = (logs w ++ [failureLine (jobType d); "Job processing failed"])%list) /\
  (forall q priority job n w,
     (addJob q d priority).1 = Ok job ->
     (1 <= n < 3)%nat ->
     let j' := (lifecycle env n job w).1 in
     state j' = delayed /\ failedReason j' = Some msg /\
     attemptsMade j' = Z.of_nat n) /\
  (forall q priority job n w,
     (addJob q d priority).1 = Ok job ->
     (3 <= n)%nat ->
     let j' := (lifecycle env n job w).1 in
     state j' = failed /\ failedReason j' = Some msg /\ attemptsMade j' = 3).
Proof.
  intros Honly Hsub.
  pose proof (sink_rejects_processJob env msg Honly d Hsub) as Hlog.
  assert (Hrej : rejects msg (processJob env d)) by (intros w; apply Hlog).
  split; [exact Hlog|]. split.
  - intros q priority job n w Hadd Hn.
    destruct (fresh_job q d priority job Hadd) as (Hdata & Hst & Ham & Hat & _).
    apply lifecycle_rejects_retried; try assumption. now rewrite Hdata.
  - intros q priority job n w Hadd Hn.
    destruct (fresh_job q d priority job Hadd) as (Hdata & Hst & Ham & Hat & _).
    apply lifecycle_always_rejects; try assumption. now rewrite Hdata.
Qed.

Lemma sink_failure_fails_the_job_witness :
  ((processJob Samples.sinkDown Samples.lidarDem emptyWorld).1
   = Throw "connect ECONNREFUSED nexus-graphrag:8090" /\
   logs (processJob Samples.sinkDown Samples.lidarDem emptyWorld).2
   = ["LiDAR processing failed"; "Job processing failed"]) /\
  state (lifecycle Samples.sinkDown 1
           (Samples.stored Samples.lidarDem 7) emptyWorld).1 = delayed /\
  state (lifecycle Samples.sinkDown 3
           (Samples.stored Samples.lidarDem 7) emptyWorld).1 = failed.
Proof.
  assert (Hadd : (addJob emptyQueue Samples.lidarDem 7).1
                 = Ok (Samples.stored Samples.lidarDem 7))
    by (vm_compute; reflexivity).
  destruct (sink_failure_fails_the_job Samples.sinkDown
              "connect ECONNREFUSED nexus-graphrag:8090" Samples.lidarDem)
    as (H1 & H2 & H3).
  - repeat split; reflexivity.
  - reflexivity.
  - split; [apply (H1 emptyWorld)|]. split.
    + apply (H2 emptyQueue 7 (Samples.stored Samples.lidarDem 7) 1%nat emptyWorld);
        [exact Hadd | lia].
    + apply (H3 emptyQueue 7 (Samples.stored Samples.lidarDem 7) 3%nat emptyWorld);
        [exact Hadd | lia].
Defined.

(** * Further properties *)

Import Routes Variants.

Set Warnings "-clear-no-such-hyp".

(** ** Redis reconnection *)

(** The reconnection delay never exceeds 10 s: it is [times] seconds up
    to the tenth attempt, 10 s from then on, and it never decreases from
    one attempt to a later one. *)
Lemma retryStrategy_bounds (times : Z) :
  (QueueConnection.retryStrategy times <= 10000)%Z /\
  ((1 <= times <= 10)%Z -> QueueConnection.retryStrategy times = (times * 1000)%Z) /\
  ((10 <= times)%Z -> QueueConnection.retryStrategy times = 10000%Z) /\
  (forall later, (times <= later)%Z ->
     (QueueConnection.retryStrategy times <= QueueConnection.retryStrategy later)%Z).
Proof. unfold QueueConnection.retryStrategy. repeat split; intros; lia. Qed.

(** ** Object store *)
Section ObjectStoreFacts.
Import ObjectStore.

Lemma prefix_app (pat s : string) : String.prefix pat (pat +:+ s) = true.
Proof.
  induction pat as [|c pat IH]; simpl.
  - now destruct s.
  - destruct (Ascii.ascii_dec c c); [exact IH|congruence].
Qed.

Lemma dropChars_app (pat s : string) :
  dropChars (String.length pat) (pat +:+ s) = s.
Proof. induction pat as [|c pat IH]; simpl; [reflexivity|exact IH]. Qed.

Lemma stripFirst_unfold (pat s : string) :
  stripFirst pat s
  = if String.prefix pat s then dropChars (String.length pat) s
    else match s with
         | EmptyString => EmptyString
         | String c rest => String c (stripFirst pat rest)
         end.
Proof. destruct s; reflexivity. Qed.

Lemma stripFirst_app (pat s : string) : stripFirst pat (pat +:+ s) = s.
Proof. rewrite stripFirst_unfold, prefix_app. apply dropChars_app. Qed.

(** Uploading then downloading through the returned reference gives the
    content back; objects under other keys are still served. *)
Theorem upload_download_roundtrip (objects : gmap string string)
    (objectPath buffer other : string) :
  let res := uploadFile objects objectPath buffer in
  downloadFile res.2 res.1 = Ok buffer /\
  (other <> objectPath ->
   downloadFile res.2 (bucketPrefix +:+ other)
   = downloadFile objects (bucketPrefix +:+ other)).
Proof.
  unfold uploadFile, downloadFile, getObject. simpl fst. simpl snd.
  rewrite !stripFirst_app. split.
  - now rewrite lookup_insert_eq.
  - intros Hne. now rewrite lookup_insert_ne.
Qed.

(** A reference to an object that was never stored is rejected, and the
    bucket prefix is stripped wherever it first occurs, not only in front. *)
Lemma download_missing_rejected (objectPath : string) :
  isOk (downloadFile ∅ objectPath) = false.
Proof. unfold downloadFile, getObject. now rewrite lookup_empty. Qed.

End ObjectStoreFacts.



Ltac unfold_handlers :=
  unfold processLiDARJob, handleLiDARIngestion, handleLiDARProcessing,
    processSpectralJob, spectralSwitch, handleUnmixing,
    handleMaterialIdentification, handleVegetationAnalysis,
    handleMineralMapping, handleWaterQualityAnalysis, spectralHandler,
    processThermalJob, thermalSwitch, handleHeatmap,
    handleAnomalyDetection, handleTemperatureExtraction, thermalImageHandler,
    processFusionJob, sarSwitch, sarCase in *;
  unfold updateProgress, downloadFile, mkdir, writeFile, uploadFile,
         storeAnalysis, mlCall, unlink in *;
  unfold_m.

Ltac leaves := repeat (case_match; simpl in *; simplify_eq).

Section Inversion.

Context {A : Type}.

Lemma rethrow_Ok_inv (line : string) (m : M A) w r w' :
  tryCatch m (fun e => logLine line ;; throw e) w = (Ok r, w') ->
  m w = (Ok r, w').
Proof.
  unfold tryCatch. destruct (m w) as [[a|e] w1]; [done|].
  unfold_m. discriminate.
Qed.

End Inversion.

Section SarFrames.

Variable env : Env.

Lemma sarFetch_frame job urls : forall i w,
  uploads (sarFetch env job i urls w).2 = uploads w /\
  documents (sarFetch env job i urls w).2 = documents w.
Proof.
  induction urls as [|u urls IH]; intros i w; [split; reflexivity|].
  simpl. unfold downloadFile, writeFile. unfold_m.
  destruct (env_download env u); [|split; reflexivity].
  destruct (env_writeFile env (sarTempPath env job i)); [|split; reflexivity].
  simpl.
  match goal with |- context [sarFetch env job (S i) urls ?w1] =>
    specialize (IH (S i) w1); destruct (sarFetch env job (S i) urls w1) as [[ps|e] w2]
  end; simpl in *; exact IH.
Qed.

Lemma sarFetch_files job urls : forall i w paths w',
  sarFetch env job i urls w = (Ok paths, w') ->
  tempFiles w' ⊆ (tempFiles w ++ paths)%list.
Proof.
  induction urls as [|u urls IH]; intros i w paths w'; simpl.
  - unfold_m. intros [= <- <-]. set_solver.
  - unfold downloadFile, writeFile. unfold_m.
    destruct (env_download env u); [|discriminate].
    destruct (env_writeFile env (sarTempPath env job i)); [|discriminate].
    simpl.
    match goal with |- context [sarFetch env job (S i) urls ?w1] =>
      specialize (IH (S i) w1);
      destruct (sarFetch env job (S i) urls w1) as [[ps|e] w2]
    end; [|discriminate].
    intros [= <- <-]. specialize (IH ps w2 eq_refl). simpl in IH.
    case_bool_decide; set_solver.
Qed.

Lemma unlinkAll_frame paths : forall w,
  uploads (unlinkAll env paths w).2 = uploads w /\
  documents (unlinkAll env paths w).2 = documents w.
Proof.
  induction paths as [|p paths IH]; intros w; [split; reflexivity|].
  simpl. unfold unlink. unfold_m.
  destruct (env_unlink env p); simpl;
    match goal with |- context [unlinkAll env paths ?w1] =>
      destruct (IH w1) as [E1 E2]; rewrite E1, E2
    end; split; reflexivity.
Qed.

Lemma unlinkAll_files paths :
  (forall p, env_unlink env p = Fulfilled) ->
  forall w x, x ∈ tempFiles (unlinkAll env paths w).2 -> x ∈ tempFiles w /\ x ∉ paths.
Proof.
  intros Hun. induction paths as [|p paths IH]; intros w x; simpl.
  - intros Hx. split; [exact Hx|]. apply not_elem_of_nil.
  - unfold unlink. unfold_m. rewrite Hun. simpl. intros Hx.
    apply IH in Hx as [Hx Hn]. simpl in Hx.
    apply list_elem_of_filter in Hx as [Hne Hx].
    split; [exact Hx|]. apply not_elem_of_cons. split; assumption.
Qed.

Lemma sarSwitch_frame job op paths w :
  tempFiles (sarSwitch env job op paths w).2 = tempFiles w /\
  uploads (sarSwitch env job op paths w).2 = uploads w.
Proof. unfold_handlers. leaves; split; reflexivity. Qed.

Lemma sarSwitch_documents job op paths w :
  match (sarSwitch env job op paths w).1 with
  | Ok _ => documents (sarSwitch env job op paths w).2
            = (documents w ++ ["sar:" +:+ job])%list
  | Throw _ => documents (sarSwitch env job op paths w).2 = documents w
  end.
Proof. unfold_handlers. leaves; reflexivity. Qed.

End SarFrames.

Ltac sar_failed :=
  split; [reflexivity|];
  split; [first [left; reflexivity | right; reflexivity]|];
  intros ? ?; discriminate.

Section SarSummary.

Variable env : Env.

(** Everything one attempt of the SAR processor does to the world. *)
Lemma processSARJob_summary d w :
  jobType d = "sar" ->
  let res := processSARJob env d w in
  uploads res.2 = uploads w /\
  (documents res.2 = documents w \/ indexedOnce d w res.2) /\
  (forall r, res.1 = Ok r ->
     r_outputPaths r = [] /\ indexedOnce d w res.2 /\
     ((forall p, env_unlink env p = Fulfilled) -> tempFiles res.2 ⊆ tempFiles w)).
Proof.
  intros Hty. unfold indexedOnce. rewrite Hty.
  unfold processSARJob, tryCatch. cbv zeta.
  unfold updateProgress, mkdir. unfold_m.
  destruct (env_updateProgress env 10); simpl; [|sar_failed].
  destruct (env_mkdir env (tempDir env)); simpl; [|sar_failed].
  match goal with |- context [sarFetch env ?job 0%nat ?urls ?w1] =>
    destruct (sarFetch_frame env job urls 0%nat w1) as [Fu Fd];
    pose proof (sarFetch_files env job urls 0%nat w1) as Ff;
    destruct (sarFetch env job 0%nat urls w1) as [[paths|e] w2]
  end; simpl in *; [|rewrite Fu, Fd; sar_failed].
  specialize (Ff paths w2 eq_refl).
  destruct (env_updateProgress env 30); simpl; [|rewrite Fu, Fd; sar_failed].
  match goal with |- context [sarSwitch env ?job ?op paths ?w3] =>
    destruct (sarSwitch_frame env job op paths w3) as [Sf Su];
    pose proof (sarSwitch_documents env job op paths w3) as Sd;
    destruct (sarSwitch env job op paths w3) as [[[]|e] w4]
  end; simpl in *; [|rewrite Su, Sd, Fu, Fd; sar_failed].
  destruct (env_updateProgress env 80); simpl;
    [|rewrite Su, Sd, Fu, Fd; sar_failed].
  match goal with |- context [unlinkAll env paths ?w5] =>
    destruct (unlinkAll_frame env paths w5) as [Uu Ud];
    pose proof (unlinkAll_files env paths) as Uf;
    destruct (unlinkAll_progress env paths w5) as [Uok _];
    pose proof (fun H => Uf H w5) as Uf';
    destruct (unlinkAll env paths w5) as [ru w6]
  end; simpl in *. subst ru.
  destruct (env_updateProgress env 100); simpl;
    rewrite Uu, Ud, Su, Sd, Fu, Fd; simpl;
    (split; [reflexivity|]); (split; [right; reflexivity|]); intros r Hr;
    [|discriminate].
  injection Hr as <-. simpl. repeat split.
  intros Hun x Hx. apply (Uf' Hun) in Hx as [Hx Hn]. simpl in Hx.
  rewrite Sf in Hx. apply Ff in Hx. simpl in Hx.
  apply elem_of_app in Hx as [Hx|Hx]; [exact Hx|contradiction].
Qed.

End SarSummary.

Lemma filter_kept_subset (tp : string) (tf : list string) :
  filter (fun p => p ≠ tp) tf ⊆ tf.
Proof. intros x Hx. now apply list_elem_of_filter in Hx. Qed.

Lemma filter_written_subset (tp : string) (tf : list string) :
  filter (fun p => p ≠ tp) (tf ++ [tp])%list ⊆ tf.
Proof.
  intros x Hx. apply list_elem_of_filter in Hx as [Hne Hx].
  apply elem_of_app in Hx as [Hx|Hx]; [exact Hx|].
  apply list_elem_of_singleton in Hx. contradiction.
Qed.

Ltac tidy_ok :=
  split; [rewrite <- ?app_assoc;
          first [ eexists; split; [reflexivity|set_solver]
                | exists (@nil string);
                  split; [symmetry; apply app_nil_r|set_solver] ]|];
  split; [reflexivity|];
  intros Hun;
  repeat match goal with
         | H : env_unlink _ _ = Rejected _ |- _ => rewrite Hun in H; discriminate H
         end;
  first [ reflexivity | apply filter_kept_subset | apply filter_written_subset ].

Ltac close_tidy :=
  unfold tidy, indexedOnce; simpl;
  split; [first [left; reflexivity | right; reflexivity]|];
  intros r Hr; simplify_eq; simpl; tidy_ok.

Section Summaries.

Variable env : Env.

Lemma summary_spectral d :
  jobType d = "spectral" -> summary env d (processSpectralJob env d).
Proof.
  intros Hty w. unfold tidy, indexedOnce. rewrite Hty.
  unfold_handlers. leaves. all: close_tidy.
Qed.

Lemma summary_thermal d :
  jobType d = "thermal" -> summary env d (processThermalJob env d).
Proof.
  intros Hty w. unfold tidy, indexedOnce. rewrite Hty.
  unfold_handlers. leaves. all: close_tidy.
Qed.

Lemma summary_lidar d :
  jobType d = "lidar" -> operation d = "process" ->
  summary env d (processLiDARJob env d).
Proof.
  intros Hty Hop w. unfold tidy, indexedOnce. rewrite Hty.
  unfold_handlers. rewrite Hop. simpl. leaves. all: close_tidy.
Qed.

Lemma summary_sar d :
  jobType d = "sar" -> summary env d (processSARJob env d).
Proof.
  intros Hty w. destruct (processSARJob_summary env d w Hty) as (Hu & Hd & Hok).
  split; [exact Hd|]. intros r Hr. destruct (Hok r Hr) as (Ho & Hi & Hf).
  split; [|split; assumption].
  exists []. rewrite Ho, Hu. split; [symmetry; apply app_nil_r|reflexivity].
Qed.

Lemma summary_rethrow d line m :
  summary env d m ->
  summary env d (tryCatch m (fun e => logLine line ;; throw e)).
Proof.
  intros H w. specialize (H w). unfold tryCatch.
  destruct (m w) as [[r|e] w1]; simpl in *; [exact H|].
  split; [apply H|]. intros r Hr. discriminate.
Qed.

Lemma summary_processJob d :
  analysisJob d -> summary env d (processJob env d).
Proof.
  intros Hd. unfold processJob. apply summary_rethrow.
  destruct Hd as [Hty|[Hty|[Hty|[Hty Hop]]]]; rewrite Hty; simpl.
  - now apply summary_spectral.
  - now apply summary_sar.
  - now apply summary_thermal.
  - now apply summary_lidar.
Qed.

End Summaries.

(** A resolved attempt of an analysis job returns only paths it has
    itself uploaded. *)
Theorem resolved_attempt_outputs_uploaded (env : Env) (d : JobData)
    (w w' : World) (r : ProcessingResult) :
  analysisJob d ->
  processJob env d w = (Ok r, w') ->
  exists new, uploads w' = (uploads w ++ new)%list /\ r_outputPaths r ⊆ new.
Proof.
  intros Hd Hrun. destruct (summary_processJob env d Hd w) as [_ H].
  rewrite Hrun in H. now destruct (H r eq_refl) as (Hu & _ & _).
Qed.

(** An attempt of an analysis job indexes at most one document, and a
    resolved attempt exactly one, named after the job. *)
Theorem attempt_indexes_once (env : Env) (d : JobData) (w : World) :
  analysisJob d ->
  let res := processJob env d w in
  (documents res.2 = documents w \/
   documents res.2 = (documents w ++ [jobType d +:+ ":" +:+ jobId d])%list) /\
  (isOk res.1 = true ->
   documents res.2 = (documents w ++ [jobType d +:+ ":" +:+ jobId d])%list).
Proof.
  intros Hd res. destruct (summary_processJob env d Hd w) as [H1 H2].
  fold res in H1, H2. split; [exact H1|].
  destruct res.1 as [r|e] eqn:E; [|discriminate]. intros _.
  now destruct (H2 r eq_refl) as (_ & Hi & _).
Qed.

(** With a working unlink, a resolved attempt leaves no file in working
    storage that was not there before. *)
Theorem resolved_attempt_leaves_no_temp_file (env : Env) (d : JobData)
    (w w' : World) (r : ProcessingResult) :
  analysisJob d ->
  (forall p, env_unlink env p = Fulfilled) ->
  processJob env d w = (Ok r, w') ->
  tempFiles w' ⊆ tempFiles w.
Proof.
  intros Hd Hun Hrun. destruct (summary_processJob env d Hd w) as [_ H].
  rewrite Hrun in H. destruct (H r eq_refl) as (_ & _ & Hf). now apply Hf.
Qed.

(** The SAR processor has no persist stage: whatever happens, it uploads
    nothing, and what it resolves with lists no output path. *)
Theorem sar_never_persists (env : Env) (d : JobData) (w : World) :
  jobType d = "sar" ->
  uploads (processJob env d w).2 = uploads w /\
  (forall r, (processJob env d w).1 = Ok r -> r_outputPaths r = []).
Proof.
  intros Hty. rewrite processJob_sar by exact Hty.
  destruct (processSARJob_summary env d w Hty) as (Hu & _ & Hok).
  unfold tryCatch. destruct (processSARJob env d w) as [[r|e] w1]; simpl in *.
  - split; [exact Hu|]. intros r' [= <-]. now destruct (Hok r eq_refl).
  - split; [exact Hu|]. intros r' Hr. discriminate.
Qed.


Section Agree.

Context {A B : Type}.

Lemma agree_ret (a : A) : agree (ret a) (ret a).
Proof. intros w1 w2 H. split; [reflexivity|exact H]. Qed.

Lemma agree_throw (e : string) : agree (throw e : M A) (throw e).
Proof. intros w1 w2 H. split; [reflexivity|exact H]. Qed.

Lemma agree_bind (m1 m2 : M A) (k1 k2 : A -> M B) :
  agree m1 m2 -> (forall a, agree (k1 a) (k2 a)) ->
  agree (bind m1 k1) (bind m2 k2).
Proof.
  intros Hm Hk w1 w2 H. destruct (Hm w1 w2 H) as [Hr Hw]. unfold bind.
  destruct (m1 w1) as [[a|e] w1'], (m2 w2) as [[a'|e'] w2']; simpl in *;
    simplify_eq; [now apply Hk|now split].
Qed.

Lemma agree_tryCatch (m1 m2 : M A) (h1 h2 : string -> M A) :
  agree m1 m2 -> (forall e, agree (h1 e) (h2 e)) ->
  agree (tryCatch m1 h1) (tryCatch m2 h2).
Proof.
  intros Hm Hh w1 w2 H. destruct (Hm w1 w2 H) as [Hr Hw]. unfold tryCatch.
  destruct (m1 w1) as [[a|e] w1'], (m2 w2) as [[a'|e'] w2']; simpl in *;
    simplify_eq; [now split|now apply Hh].
Qed.

End Agree.

Section AgreePrimitives.

Variable env : Env.
Variable u : string -> Settle.

Ltac prim :=
  intros w1 w2 (Hp & Hu & Hd);
  unfold updateProgress, mkdir, downloadFile, writeFile, uploadFile, mlCall,
    storeAnalysis, unlink, sameButFiles;
  unfold_m; simpl;
  repeat (case_match; simpl in *; simplify_eq);
  rewrite ?Hp, ?Hu, ?Hd; auto.

Lemma agree_logLine line : agree (logLine line) (logLine line).
Proof. prim. Qed.

Lemma agree_updateProgress v :
  agree (updateProgress (withUnlink env u) v) (updateProgress env v).
Proof. prim. Qed.

Lemma agree_mkdir dir : agree (mkdir (withUnlink env u) dir) (mkdir env dir).
Proof. prim. Qed.

Lemma agree_downloadFile url :
  agree (downloadFile (withUnlink env u) url) (downloadFile env url).
Proof. prim. Qed.

Lemma agree_writeFile path :
  agree (writeFile (withUnlink env u) path) (writeFile env path).
Proof. prim. Qed.

Lemma agree_uploadFile path :
  agree (uploadFile (withUnlink env u) path) (uploadFile env path).
Proof. prim. Qed.

Lemma agree_mlCall method :
  agree (mlCall (withUnlink env u) method) (mlCall env method).
Proof. prim. Qed.

Lemma agree_storeAnalysis kind job :
  agree (storeAnalysis (withUnlink env u) kind job) (storeAnalysis env kind job).
Proof. prim. Qed.

(** A swallowed unlink: whatever it answers on either side, the step
    resolves and touches only files and logs. *)
Lemma agree_cleanup path (h : string -> M unit) :
  (forall e w, (h e w).1 = Ok tt /\ sameButFiles (h e w).2 w) ->
  agree (catchWith (unlink (withUnlink env u) path) h)
        (catchWith (unlink env path) h).
Proof.
  intros Hh w1 w2 (Hp & Hu & Hd). unfold unlink, sameButFiles in *. unfold_m. simpl.
  destruct (u path) as [|e1], (env_unlink env path) as [|e2]; simpl;
    repeat match goal with
           | |- context [h ?e ?w] =>
               let E1 := fresh in let E2 := fresh in
               destruct (Hh e w) as [E1 E2]; destruct (h e w) as [? ?];
               simpl in *; subst
           end;
    intuition congruence.
Qed.

End AgreePrimitives.

Section AgreeHandlers.

Variable env : Env.
Variable u : string -> Settle.

Lemma swallow_ok (w : World) :
  ((mret tt : M unit) w).1 = Ok tt /\ sameButFiles ((mret tt : M unit) w).2 w.
Proof. repeat split. Qed.

Lemma warn_ok (line : string) (w : World) :
  (logLine line w).1 = Ok tt /\ sameButFiles (logLine line w).2 w.
Proof. repeat split. Qed.

Ltac agree_step :=
  first
    [ apply agree_ret | apply agree_throw | apply agree_logLine
    | apply agree_updateProgress | apply agree_mkdir | apply agree_downloadFile
    | apply agree_writeFile | apply agree_uploadFile | apply agree_mlCall
    | apply agree_storeAnalysis
    | apply agree_cleanup; intros ? ?; cbv beta;
      first [apply swallow_ok | apply warn_ok]
    | apply agree_tryCatch; [|intros ?]
    | apply agree_bind; [|intros ?]
    | match goal with
      | |- agree (if ?c then _ else _) _ => destruct c
      | |- agree (match ?x with _ => _ end) _ => destruct x
      end ].

Ltac agree_auto :=
  unfold mbind, M_bind, mret, M_ret; cbv zeta; repeat agree_step.

Lemma agree_fusion d :
  agree (processFusionJob (withUnlink env u) d) (processFusionJob env d).
Proof. unfold processFusionJob. agree_auto. Qed.

Lemma agree_lidar d :
  agree (processLiDARJob (withUnlink env u) d) (processLiDARJob env d).
Proof.
  unfold processLiDARJob, handleLiDARIngestion, handleLiDARProcessing.
  agree_auto.
Qed.

Lemma agree_spectral d :
  agree (processSpectralJob (withUnlink env u) d) (processSpectralJob env d).
Proof.
  unfold processSpectralJob, spectralSwitch, handleUnmixing,
    handleMaterialIdentification, handleVegetationAnalysis,
    handleMineralMapping, handleWaterQualityAnalysis, spectralHandler.
  agree_auto.
Qed.

Lemma agree_thermal d :
  agree (processThermalJob (withUnlink env u) d) (processThermalJob env d).
Proof.
  unfold processThermalJob, thermalSwitch, handleHeatmap,
    handleAnomalyDetection, handleTemperatureExtraction, thermalImageHandler.
  agree_auto.
Qed.

Lemma agree_sarFetch job urls : forall i,
  agree (sarFetch (withUnlink env u) job i urls) (sarFetch env job i urls).
Proof.
  induction urls as [|url urls IH]; intros i; simpl; agree_auto. apply IH.
Qed.

Lemma agree_unlinkAll paths :
  agree (unlinkAll (withUnlink env u) paths) (unlinkAll env paths).
Proof. induction paths as [|p paths IH]; simpl; agree_auto. apply IH. Qed.

Lemma agree_sar d :
  agree (processSARJob (withUnlink env u) d) (processSARJob env d).
Proof.
  unfold processSARJob, sarSwitch, sarCase. agree_auto.
  all: first [apply agree_sarFetch | apply agree_unlinkAll].
Qed.

Lemma agree_processJob d :
  agree (processJob (withUnlink env u) d) (processJob env d).
Proof.
  unfold processJob. apply agree_tryCatch; [|intros e; agree_auto].
  cbv zeta.
  repeat match goal with |- agree (if ?c then _ else _) _ => destruct c end;
    match goal with
    | |- agree (processLiDARJob _ _) _ => apply agree_lidar
    | |- agree (processSpectralJob _ _) _ => apply agree_spectral
    | |- agree (processSARJob _ _) _ => apply agree_sar
    | |- agree (processThermalJob _ _) _ => apply agree_thermal
    | |- agree (processFusionJob _ _) _ => apply agree_fusion
    | |- agree (throw _) _ => apply agree_throw
    end.
Qed.

End AgreeHandlers.

(** A failing cleanup never escalates: whatever [fs.unlink] answers, the
    attempt settles the same way, reports the same progress, uploads the
    same objects and indexes the same documents. *)
Theorem cleanup_failure_never_escalates (env : Env) (u : string -> Settle)
    (d : JobData) (w : World) :
  let a := processJob (withUnlink env u) d w in
  let b := processJob env d w in
  a.1 = b.1 /\ progress a.2 = progress b.2 /\
  uploads a.2 = uploads b.2 /\ documents a.2 = documents b.2.
Proof.
  intros a b.
  destruct (agree_processJob env u d w w) as [Hr (Hp & Hu & Hd)];
    [repeat split|]. auto.
Qed.


(** The LiDAR handler calls the ML service only for [classify_ground] or
    [extract_buildings]: without them the attempt is the same whatever the
    ML service would answer. *)
Theorem lidar_without_classification_skips_ml (env : Env)
    (ml : string -> Result MLResponse) (d : JobData) (w : World) :
  jobType d = "lidar" ->
  operation d = "process" ->
  "classify_ground" ∉ optOperations d ->
  "extract_buildings" ∉ optOperations d ->
  processJob (withML env ml) d w = processJob env d w.
Proof.
  intros Hty Hop Hc He. unfold processJob. rewrite Hty. simpl.
  unfold processLiDARJob, handleLiDARProcessing. rewrite Hop. simpl.
  unfold includes.
  rewrite (bool_decide_eq_false_2 _ Hc), (bool_decide_eq_false_2 _ He).
  reflexivity.
Qed.

(** Fusion is a placeholder: a fusion job with any operation resolves as
    soon as its two progress reports go through, and no attempt of it
    touches working storage, the object store or the index. *)
Theorem fusion_is_a_placeholder (env : Env) (d : JobData) (w : World) :
  jobType d = "fusion" ->
  let res := processJob env d w in
  (env_updateProgress env 50 = Fulfilled ->
   env_updateProgress env 100 = Fulfilled ->
   res.1 = Ok (mkProcessingResult (jobId d) (operation d) [])) /\
  tempFiles res.2 = tempFiles w /\ uploads res.2 = uploads w /\
  documents res.2 = documents w.
Proof.
  intros Hty. unfold processJob. rewrite Hty. simpl. unfold_handlers.
  leaves; repeat split; intros; congruence.
Qed.

(** LiDAR ingestion only reports progress: it reads and writes nothing,
    and when it resolves it hands the source reference back as its single
    output path. *)
Theorem lidar_ingestion_touches_nothing (env : Env) (d : JobData) (w : World) :
  jobType d = "lidar" ->
  operation d = "ingest" ->
  let res := processJob env d w in
  (forall r, res.1 = Ok r -> r_outputPaths r = [sourceUrl d]) /\
  tempFiles res.2 = tempFiles w /\ uploads res.2 = uploads w /\
  documents res.2 = documents w.
Proof.
  intros Hty Hop. unfold processJob. rewrite Hty. simpl. unfold_handlers.
  rewrite Hop. simpl.
  leaves; repeat split; intros; simplify_eq; reflexivity.
Qed.

(** ** Unknown modality *)

(** A job of a type the dispatcher does not know is not failed at once:
    every attempt throws "Unknown job type: ..." without reporting any
    progress, and the job is failed with that reason only when its three
    attempts are used up. *)
Theorem unknown_job_type_is_retried (env : Env) (d : JobData) :
  jobType d ∉ ["lidar"; "spectral"; "sar"; "thermal"; "fusion"] ->
  (forall w, processJob env d w
             = (Throw ("Unknown job type: " +:+ jobType d),
                mkWorld (progress w) (tempFiles w) (uploads w) (documents w)
                        (logs w ++ ["Job processing failed"]))) /\
  (forall q priority job n w,
     (addJob q d priority).1 = Ok job ->
     (3 <= n)%nat ->
     let j' := (lifecycle env n job w).1 in
     state j' = failed /\
     failedReason j' = Some ("Unknown job type: " +:+ jobType d) /\
     attemptsMade j' = 3).
Proof.
  intros Hty.
  assert (Hrun : forall w, processJob env d w
             = (Throw ("Unknown job type: " +:+ jobType d),
                mkWorld (progress w) (tempFiles w) (uploads w) (documents w)
                        (logs w ++ ["Job processing failed"]))).
  { intros w. unfold processJob.
    repeat (apply not_elem_of_cons in Hty as [Hne Hty];
            apply String.eqb_neq in Hne; rewrite Hne; clear Hne).
    reflexivity. }
  split; [exact Hrun|].
  intros q priority job n w Hadd Hn.
  destruct (fresh_job q d priority job Hadd) as (Hd & Ht & Ha & Ho & _).
  apply lifecycle_always_rejects; try assumption.
  intros w0. rewrite Hd, Hrun. reflexivity.
Qed.

Lemma unknown_job_type_is_retried_witness :
  let d := mkJobData "job-x" "anonymous" "optical" "classify" "raw/x.tif" None [] None in
  (processJob Samples.healthy d emptyWorld).1 = Throw "Unknown job type: optical" /\
  attemptsMade (lifecycle Samples.healthy 3 (Samples.stored d 5) emptyWorld).1 = 3.
Proof.
  intros d.
  destruct (unknown_job_type_is_retried Samples.healthy d) as [H1 H2].
  { intros H. repeat (apply elem_of_cons in H as [H|H]; [discriminate H|]).
    inversion H. }
  split; [now rewrite H1|].
  apply (H2 emptyQueue 5 (Samples.stored d 5) 3%nat emptyWorld); [reflexivity|lia].
Defined.

(** ** Operations the routes enqueue and the processors do not know *)

Section Mismatch.

Variable env : Env.

Lemma thermal_unknown_fails d :
  operation d ∉ ["heatmap"; "anomaly_detection"; "temperature_extract"] ->
  fails (processThermalJob env d) /\
  (singleFetchSucceeds env ->
   rejects ("Unknown thermal operation: " +:+ operation d)
           (processThermalJob env d)).
Proof.
  intros Hop.
  repeat (apply not_elem_of_cons in Hop as [Hne Hop];
          apply String.eqb_neq in Hne; revert Hne).
  intros E3 E2 E1. split.
  - intros w. unfold_handlers. rewrite E1, E2, E3. leaves; reflexivity.
  - intros (P10 & Hdl & Hmk & Hwr & P20) w. unfold_handlers.
    rewrite E1, E2, E3, P10, Hdl, Hmk, Hwr, P20. reflexivity.
Qed.

Lemma spectral_unknown_fails d :
  operation d ∉ ["unmix"; "identify"; "vegetation"; "minerals"; "water_quality"] ->
  fails (processSpectralJob env d) /\
  (singleFetchSucceeds env ->
   rejects ("Unknown spectral operation: " +:+ operation d)
           (processSpectralJob env d)).
Proof.
  intros Hop.
  repeat (apply not_elem_of_cons in Hop as [Hne Hop];
          apply String.eqb_neq in Hne; revert Hne).
  intros E5 E4 E3 E2 E1. split.
  - intros w. unfold_handlers. rewrite E1, E2, E3, E4, E5. leaves; reflexivity.
  - intros (P10 & Hdl & Hmk & Hwr & P20) w. unfold_handlers.
    rewrite E1, E2, E3, E4, E5, P10, Hdl, Hmk, Hwr, P20. reflexivity.
Qed.

Lemma processJob_thermal d :
  jobType d = "thermal" ->
  processJob env d
  = tryCatch (processThermalJob env d)
             (fun e => logLine "Job processing failed" ;; throw e).
Proof. intros H. unfold processJob. now rewrite H. Qed.

Lemma processJob_spectral d :
  jobType d = "spectral" ->
  processJob env d
  = tryCatch (processSpectralJob env d)
             (fun e => logLine "Job processing failed" ;; throw e).
Proof. intros H. unfold processJob. now rewrite H. Qed.

Lemma never_completes_of_fails d :
  fails (processJob env d) ->
  forall q priority job n w,
    (addJob q d priority).1 = Ok job ->
    state (lifecycle env n job w).1 <> completed.
Proof.
  intros Hf q priority job n w Hadd.
  destruct (fresh_job q d priority job Hadd) as (Hd & _ & _ & _ & Hs).
  apply lifecycle_never_completes; [now rewrite Hd|exact Hs].
Qed.

End Mismatch.

(** A thermal job enqueued by the ingest, anomaly or extract route
    (operations [ingest], [anomaly], [extract]) matches no case of the
    thermal processor, which knows [heatmap], [anomaly_detection] and
    [temperature_extract]: no attempt succeeds, an attempt whose fetch
    succeeds throws "Unknown thermal operation: ...", and the job never
    reaches [completed]. *)
Theorem thermal_ingest_anomaly_extract_never_complete (env : Env) (d : JobData)
    (jid uid src : string) :
  d = thermalIngestData jid uid src \/ d = thermalAnomalyData jid uid src \/
  d = thermalExtractData jid uid src ->
  (forall w, isOk (processJob env d w).1 = false) /\
  (singleFetchSucceeds env ->
   forall w, (processJob env d w).1
             = Throw ("Unknown thermal operation: " +:+ operation d)) /\
  (forall q priority job n w,
     (addJob q d priority).1 = Ok job ->
     state (lifecycle env n job w).1 <> completed).
Proof.
  intros Hd.
  assert (Hty : jobType d = "thermal") by (destruct Hd as [-> | [-> | ->]]; reflexivity).
  assert (Hop : operation d ∉ ["heatmap"; "anomaly_detection"; "temperature_extract"]).
  { intros H. destruct Hd as [-> | [-> | ->]]; simpl in H;
      repeat (apply elem_of_cons in H as [H|H]; [discriminate H|]); inversion H. }
  destruct (thermal_unknown_fails env d Hop) as [Hf Hr].
  assert (F : fails (processJob env d)).
  { rewrite processJob_thermal by exact Hty. now apply fails_rethrown. }
  split; [exact F|]. split.
  - intros Hfetch. change (rejects ("Unknown thermal operation: " +:+ operation d)
                                   (processJob env d)).
    rewrite processJob_thermal by exact Hty. apply rejects_rethrow. now apply Hr.
  - now apply never_completes_of_fails.
Qed.

Lemma thermal_ingest_anomaly_extract_never_complete_witness :
  let d := thermalAnomalyData "job-t" "anonymous" "dataset-1" in
  (processJob Samples.healthy d emptyWorld).1
  = Throw "Unknown thermal operation: anomaly" /\
  state (lifecycle Samples.healthy 5 (Samples.stored d 7) emptyWorld).1 <> completed.
Proof.
  intros d.
  destruct (thermal_ingest_anomaly_extract_never_complete Samples.healthy d
              "job-t" "anonymous" "dataset-1" (or_intror (or_introl eq_refl)))
    as (_ & H2 & H3).
  split.
  - apply H2. repeat split; reflexivity.
  - apply (H3 emptyQueue 7). reflexivity.
Defined.

(** A spectral job enqueued by the ingest route (operation [ingest])
    matches no case of the spectral processor: it never completes. *)
Theorem spectral_ingest_never_completes (env : Env) (d : JobData)
    (jid uid minioPath : string) :
  d = spectralIngestData jid uid minioPath ->
  (forall w, isOk (processJob env d w).1 = false) /\
  (singleFetchSucceeds env ->
   forall w, (processJob env d w).1 = Throw "Unknown spectral operation: ingest") /\
  (forall q priority job n w,
     (addJob q d priority).1 = Ok job ->
     state (lifecycle env n job w).1 <> completed).
Proof.
  intros ->.
  set (d := spectralIngestData jid uid minioPath).
  assert (Hop : operation d ∉ ["unmix"; "identify"; "vegetation"; "minerals";
                               "water_quality"]).
  { intros H. simpl in H.
    repeat (apply elem_of_cons in H as [H|H]; [discriminate H|]); inversion H. }
  destruct (spectral_unknown_fails env d Hop) as [Hf Hr].
  assert (F : fails (processJob env d)).
  { rewrite processJob_spectral by reflexivity. now apply fails_rethrown. }
  split; [exact F|]. split.
  - intros Hfetch. change (rejects "Unknown spectral operation: ingest"
                                   (processJob env d)).
    rewrite processJob_spectral by reflexivity. apply rejects_rethrow.
    now apply Hr.
  - now apply never_completes_of_fails.
Qed.

Lemma spectral_ingest_never_completes_witness :
  let d := spectralIngestData "job-s" "anonymous" "minio://geoagent-hypermodal/raw/job-s/cube.h5" in
  (processJob Samples.healthy d emptyWorld).1
  = Throw "Unknown spectral operation: ingest".
Proof.
  intros d.
  destruct (spectral_ingest_never_completes Samples.healthy d "job-s" "anonymous"
              "minio://geoagent-hypermodal/raw/job-s/cube.h5" eq_refl)
    as (_ & H2 & _).
  apply H2. repeat split; reflexivity.
Defined.

(** ** SAR jobs as the API enqueues them *)

Lemma sarSwitch_too_few_coherence env job paths :
  (length paths < 2)%nat ->
  rejects "Coherence calculation requires at least 2 SAR images"
          (sarSwitch env job "coherence" paths).
Proof.
  intros Hl w. unfold sarSwitch, sarCase. simpl. unfold_m.
  rewrite bool_decide_eq_true_2 by exact Hl. reflexivity.
Qed.

(** The interferometry and coherence routes put the dataset ids in
    [sourceUrl]; the SAR processor reads [sourceUrls].  So however many
    datasets the request named, the processor fetches no image and every
    attempt whose first steps succeed stops at the image-count guard; the
    job ends [failed] after its three attempts. *)
Theorem api_sar_pairs_fail_the_image_guard (env : Env) (d : JobData)
    (jid uid : string) (dataset_ids : list string) (guard : string) :
  (d = sarInterferometryData jid uid dataset_ids /\
   guard = "Interferometry requires at least 2 SAR images") \/
  (d = sarCoherenceData jid uid dataset_ids /\
   guard = "Coherence calculation requires at least 2 SAR images") ->
  sarFetchSucceeds env ->
  (forall w, (processJob env d w).1 = Throw guard) /\
  (forall q priority job n w,
     (addJob q d priority).1 = Ok job ->
     (3 <= n)%nat ->
     let j' := (lifecycle env n job w).1 in
     state j' = failed /\ failedReason j' = Some guard /\ attemptsMade j' = 3).
Proof.
  intros Hd Hfetch.
  assert (Hrej : rejects guard (processJob env d)).
  { destruct Hd as [[-> ->] | [-> ->]];
      (rewrite processJob_sar by reflexivity; apply rejects_rethrow;
       apply processSARJob_switch_rejects; [exact Hfetch|]; simpl;
       intros paths Hl;
       first [apply sarSwitch_too_few | apply sarSwitch_too_few_coherence];
       rewrite Hl; lia). }
  split; [exact Hrej|].
  intros q priority job n w Hadd Hn.
  destruct (fresh_job q d priority job Hadd) as (Hdata & Ht & Ha & Ho & _).
  apply lifecycle_always_rejects; try assumption. now rewrite Hdata.
Qed.

Lemma api_sar_pairs_fail_the_image_guard_witness :
  let d := sarInterferometryData "job-i" "anonymous" ["s1a"; "s1b"; "s1c"] in
  (processJob Samples.healthy d emptyWorld).1
  = Throw "Interferometry requires at least 2 SAR images" /\
  state (lifecycle Samples.healthy 3 (Samples.stored d 8) emptyWorld).1 = failed.
Proof.
  intros d.
  destruct (api_sar_pairs_fail_the_image_guard Samples.healthy d "job-i" "anonymous"
              ["s1a"; "s1b"; "s1c"] "Interferometry requires at least 2 SAR images")
    as [H1 H2].
  - left. split; reflexivity.
  - repeat split; reflexivity.
  - split; [apply H1|].
    apply (H2 emptyQueue 8 (Samples.stored d 8) 3%nat emptyWorld); [reflexivity|lia].
Defined.

(** ** The queue manager and the job routes *)

(** A job [addJob] resolved for, under a fresh (non-empty) id, can be
    read back at once: the status route answers 200 with the job's id,
    its type, its state (waiting by priority), progress 0, its data, no
    result, no failure reason and no attempt made; the answers for all
    other ids are what they were. *)
Theorem added_job_is_visible (q : Queue) (d : JobData) (priority : Z)
    (job : Job) (other : string) :
  jobs q !! jobId d = None ->
  jobId d <> "" ->
  (addJob q d priority).1 = Ok job ->
  let q' := (addJob q d priority).2 in
  getJobRoute q' (jobId d)
  = mkResponse 200 true None
      (Some (JobBody (mkJobStatus (jobId d) (jobType d)
                        (if (priority =? 0)%Z then waiting else prioritized)
                        0 d None None 0))) /\
  (other <> jobId d -> getJobRoute q' other = getJobRoute q other).
Proof.
  intros Hfresh _ Hadd. apply addJob_Ok in Hadd as [Hopt _].
  unfold addJob, lib_add. rewrite Hopt, Hfresh. simpl.
  unfold getJobRoute, getJob, lib_getJob. simpl. split.
  - now rewrite lookup_insert_eq.
  - intros Hne. now rewrite lookup_insert_ne.
Qed.

Lemma added_job_is_visible_witness :
  getJobRoute (addJob emptyQueue Samples.sarPair 8).2 "job-pair"
  = mkResponse 200 true None
      (Some (JobBody (mkJobStatus "job-pair" "sar" prioritized 0 Samples.sarPair
                        None None 0))).
Proof.
  destruct (added_job_is_visible emptyQueue Samples.sarPair 8
              (Samples.stored Samples.sarPair 8) "x") as [H _].
  - reflexivity.
  - discriminate.
  - vm_compute. reflexivity.
  - exact H.
Defined.

(** Cancelling an id the queue does not hold answers 404 with the code
    [CANNOT_CANCEL], the same answer as for a finished job, and changes
    nothing. *)
Theorem cancel_unknown_job (q : Queue) (jid : string) :
  jobs q !! jid = None ->
  deleteJobRoute q jid = (mkResponse 404 false (Some "CANNOT_CANCEL") None, q).
Proof.
  intros H. unfold deleteJobRoute, cancelJob, lib_getJob. now rewrite H.
Qed.

Lemma cancel_unknown_job_witness :
  deleteJobRoute Samples.pendingQueue "no-such-job"
  = (mkResponse 404 false (Some "CANNOT_CANCEL") None, Samples.pendingQueue).
Proof. apply cancel_unknown_job. vm_compute. reflexivity. Defined.

(** Cancelling a job that waits (in any waiting state, or delayed for a
    retry) succeeds and removes exactly that job: every other job's
    record is untouched. *)
Theorem cancel_waiting_job (q : Queue) (jid other : string) (j : Job) :
  jobs q !! jid = Some j ->
  state j = waiting \/ state j = prioritized \/ state j = delayed ->
  let res := deleteJobRoute q jid in
  res.1 = mkResponse 200 true None None /\
  jobs res.2 !! jid = None /\
  (other <> jid -> jobs res.2 !! other = jobs q !! other).
Proof.
  intros Hj Hs. unfold deleteJobRoute, cancelJob, lib_getJob, lib_remove.
  rewrite Hj. simpl.
  destruct Hs as [-> | [-> | ->]]; simpl; (split; [reflexivity|]); split;
    try apply lookup_delete_eq; intros Hne; now apply lookup_delete_ne.
Qed.

Lemma cancel_waiting_job_witness :
  (deleteJobRoute Samples.pendingQueue "job-pair").1 = mkResponse 200 true None None.
Proof.
  destruct (cancel_waiting_job Samples.pendingQueue "job-pair" "x"
              (Samples.stored Samples.sarPair 8)) as [H _].
  - vm_compute. reflexivity.
  - right. left. reflexivity.
  - exact H.
Defined.

(** ** Validation in the admission routes *)

Lemma no_invalid_Forall (ops : list string) :
  ~ (0 < length (filter (fun op => op ∉ validOperations) ops))%nat ->
  Forall (fun op => op ∈ validOperations) ops.
Proof.
  induction ops as [|op ops IH]; intros H; [constructor|].
  rewrite filter_cons in H. destruct (decide (op ∉ validOperations)) as [Hn|Hy].
  - simpl in H. lia.
  - constructor; [|now apply IH].
    destruct (decide (op ∈ validOperations)); [assumption|contradiction].
Qed.

(** [POST /lidar/process] enqueues only for a dataset id and a non-empty
    list of operations all taken from the six valid ones, at priority 7;
    a request it refuses with 400 leaves the queue as it was. *)
Theorem lidar_process_route_validates (q : Queue) (jid uid : string)
    (dataset_id : option string) (operations : option (list string)) :
  let res := postLidarProcess q jid uid dataset_id operations in
  (statusCode res.1 = 400 -> res.2 = q) /\
  (statusCode res.1 = 202 ->
   exists ds ops,
     dataset_id = Some ds /\ ds <> "" /\ operations = Some ops /\ ops <> [] /\
     Forall (fun op => op ∈ validOperations) ops /\
     res.2 = (addJob q (lidarProcessData jid uid ds ops) 7).2).
Proof.
  unfold postLidarProcess, truthy.
  destruct dataset_id as [ds|]; simpl; [|split; [reflexivity|discriminate]].
  destruct (String.eqb ds "") eqn:Eds; simpl; [split; [reflexivity|discriminate]|].
  destruct operations as [[|op ops]|]; simpl;
    try (split; [reflexivity|discriminate]).
  case_bool_decide as Hinv; simpl; [split; [reflexivity|discriminate]|].
  unfold enqueueAndRespond.
  destruct (addJob q (lidarProcessData jid uid ds (op :: ops)) 7)
    as [[job|e] q'] eqn:E; [|split; discriminate].
  simpl. split; [discriminate|]. intros _.
  exists ds, (op :: ops). repeat split; try done.
  - now apply String.eqb_neq.
  - now apply no_invalid_Forall.
  - exact (eq_sym (f_equal snd E)).
Qed.

Lemma lidar_process_route_validates_witness :
  (postLidarProcess emptyQueue "job-l" "anonymous" (Some "dataset-1")
     (Some ["dem"; "slope"])).2 = emptyQueue /\
  exists ds ops,
    Some "dataset-1" = Some ds /\ ds <> "" /\
    Some ["dem"; "chm"] = Some ops /\ ops <> [] /\
    Forall (fun op => op ∈ validOperations) ops /\
    (postLidarProcess emptyQueue "job-l" "anonymous" (Some "dataset-1")
       (Some ["dem"; "chm"])).2
    = (addJob emptyQueue (lidarProcessData "job-l" "anonymous" ds ops) 7).2.
Proof.
  split.
  - destruct (lidar_process_route_validates emptyQueue "job-l" "anonymous"
                (Some "dataset-1") (Some ["dem"; "slope"])) as [H _].
    apply H. reflexivity.
  - destruct (lidar_process_route_validates emptyQueue "job-l" "anonymous"
                (Some "dataset-1") (Some ["dem"; "chm"])) as [_ H].
    apply H. vm_compute. reflexivity.
Defined.

(** [POST /fusion/multimodal] enqueues only for at least two datasets, an
    output type and one of the three fusion methods (absent: the default
    [feature_level]), at priority 9; a request it refuses with 400 leaves
    the queue as it was. *)
Theorem fusion_route_validates (q : Queue) (jid uid : string)
    (datasets : option (list string)) (fusion_method output_type : option string) :
  let res := postFusionMultimodalRequest q jid uid datasets fusion_method output_type in
  (statusCode res.1 = 400 -> res.2 = q) /\
  (statusCode res.1 = 202 ->
   exists ids,
     datasets = Some ids /\ (2 <= length ids)%nat /\ truthy output_type = true /\
     default "feature_level" fusion_method ∈ validFusionMethods /\
     res.2 = (addJob q (fusionMultimodalData jid uid ids) 9).2).
Proof.
  unfold postFusionMultimodalRequest.
  destruct datasets as [ids|]; simpl; [|split; [reflexivity|discriminate]].
  case_bool_decide as Hlen; simpl; [split; [reflexivity|discriminate]|].
  destruct (truthy output_type) eqn:Hout; simpl;
    [|split; [reflexivity|discriminate]].
  unfold includes. case_bool_decide as Hm; simpl;
    [|split; [reflexivity|discriminate]].
  unfold postFusionMultimodal, enqueueAndRespond.
  destruct (addJob q (fusionMultimodalData jid uid ids) 9)
    as [[job|e] q'] eqn:E; [|split; discriminate].
  simpl. split; [discriminate|]. intros _.
  exists ids. repeat split; try done; [lia|].
  exact (eq_sym (f_equal snd E)).
Qed.

Lemma fusion_route_validates_witness :
  (postFusionMultimodalRequest emptyQueue "job-f" "anonymous"
     (Some ["lidar-1"; "thermal-1"]) (Some "voting") (Some "classification_map")).2
  = emptyQueue /\
  exists ids,
    Some ["lidar-1"; "thermal-1"] = Some ids /\ (2 <= length ids)%nat /\
    truthy (Some "classification_map") = true /\
    default "feature_level" None ∈ validFusionMethods /\
    (postFusionMultimodalRequest emptyQueue "job-f" "anonymous"
       (Some ["lidar-1"; "thermal-1"]) None (Some "classification_map")).2
    = (addJob emptyQueue (fusionMultimodalData "job-f" "anonymous" ids) 9).2.
Proof.
  split.
  - destruct (fusion_route_validates emptyQueue "job-f" "anonymous"
                (Some ["lidar-1"; "thermal-1"]) (Some "voting")
                (Some "classification_map")) as [H _].
    apply H. reflexivity.
  - destruct (fusion_route_validates emptyQueue "job-f" "anonymous"
                (Some ["lidar-1"; "thermal-1"]) None
                (Some "classification_map")) as [_ H].
    apply H. vm_compute. reflexivity.
Defined.

(** ** QueueService *)

(** What [enqueue] stores can be read back by the id it answers: the job,
    in status [pending], is under [job:<id>] and at the head of the list
    of its queue; the jobs stored under other ids are untouched. *)
Theorem enqueue_then_getJob (r : QueueService.Redis) (now : Z)
    (random createdAt queue data other : string) :
  let res := QueueService.enqueue r now random createdAt queue data in
  let job := QueueService.mkSimpleJob res.1 queue data "pending" createdAt in
  QueueServiceJobs.getJob res.2 res.1 = Some job /\
  QueueService.lists res.2 !! ("queue:" +:+ queue)
  = Some (job :: default [] (QueueService.lists r !! ("queue:" +:+ queue))) /\
  (other <> res.1 ->
   QueueServiceJobs.getJob res.2 other = QueueServiceJobs.getJob r other).
Proof.
  unfold QueueService.enqueue, QueueServiceJobs.getJob, QueueService.set,
    QueueService.lpush. cbn [fst snd QueueService.keys QueueService.lists].
  split; [apply lookup_insert_eq|]. split; [apply lookup_insert_eq|].
  intros Hne. apply lookup_insert_ne. intros Heq. apply Hne.
  simpl in Heq. injection Heq as Heq. symmetry. exact Heq.
Qed.

Lemma enqueue_then_getJob_witness :
  QueueServiceJobs.getJob
    (QueueService.enqueue QueueService.emptyRedis 2 "b" "t" "ingest" "{}").2 "job_1_a"
  = QueueServiceJobs.getJob QueueService.emptyRedis "job_1_a" /\
  let r1 := (QueueService.enqueue QueueService.emptyRedis 1 "a" "t" "ingest" "{}").2 in
  QueueServiceJobs.getJob (QueueService.enqueue r1 2 "b" "t" "ingest" "{}").2 "job_1_a"
  = QueueServiceJobs.getJob r1 "job_1_a".
Proof.
  split.
  - destruct (enqueue_then_getJob QueueService.emptyRedis 2 "b" "t" "ingest" "{}"
                "job_1_a") as (_ & _ & H3).
    apply H3. vm_compute. discriminate.
  - intros r1.
    destruct (enqueue_then_getJob r1 2 "b" "t" "ingest" "{}" "job_1_a")
      as (_ & _ & H3).
    apply H3. vm_compute. discriminate.
Defined.

(** ** Witnesses *)

Lemma retryStrategy_bounds_witness :
  QueueConnection.retryStrategy 3 = 3000%Z /\
  QueueConnection.retryStrategy 25 = 10000%Z.
Proof.
  destruct (retryStrategy_bounds 3) as (_ & H1 & _).
  destruct (retryStrategy_bounds 25) as (_ & _ & H2 & _).
  split; [apply H1 | apply H2]; lia.
Defined.

Lemma upload_download_roundtrip_witness :
  ObjectStore.downloadFile
    (ObjectStore.uploadFile {[ "raw/a.tif" := "AAAA" ]} "processed/j/results.json" "{}").2
    "minio://geoagent-hypermodal/raw/a.tif"
  = Ok "AAAA".
Proof.
  destruct (upload_download_roundtrip {[ "raw/a.tif" := "AAAA" ]}
              "processed/j/results.json" "{}" "raw/a.tif") as [_ H].
  etransitivity; [apply H; discriminate|]. vm_compute. reflexivity.
Defined.

Lemma resolved_attempt_outputs_uploaded_witness :
  exists new,
    uploads (processJob Samples.healthy Samples.lidarDem emptyWorld).2
    = (uploads emptyWorld ++ new)%list /\
    ["processed/job-lidar/results.json"] ⊆ new.
Proof.
  eapply (resolved_attempt_outputs_uploaded Samples.healthy Samples.lidarDem
            emptyWorld _ (mkProcessingResult "job-lidar" "process"
                            ["processed/job-lidar/results.json"])).
  - right. right. right. split; reflexivity.
  - vm_compute. reflexivity.
Defined.

Lemma attempt_indexes_once_witness :
  documents (processJob Samples.healthy Samples.sarPair emptyWorld).2
  = ["sar:job-pair"].
Proof.
  destruct (attempt_indexes_once Samples.healthy Samples.sarPair emptyWorld)
    as [_ H].
  - right. left. reflexivity.
  - apply H. vm_compute. reflexivity.
Defined.

Lemma resolved_attempt_leaves_no_temp_file_witness :
  tempFiles (processJob Samples.healthy Samples.sarPair emptyWorld).2
  ⊆ tempFiles emptyWorld.
Proof.
  eapply (resolved_attempt_leaves_no_temp_file Samples.healthy Samples.sarPair
            emptyWorld _ (mkProcessingResult "job-pair" "interferometry" [])).
  - right. left. reflexivity.
  - reflexivity.
  - vm_compute. reflexivity.
Defined.

Lemma sar_never_persists_witness :
  uploads (processJob Samples.mlDown Samples.sarPair emptyWorld).2 = [].
Proof.
  destruct (sar_never_persists Samples.mlDown Samples.sarPair emptyWorld) as [H _].
  - reflexivity.
  - exact H.
Defined.

Lemma lidar_without_classification_skips_ml_witness :
  processJob (withML Samples.healthy (fun _ => Throw "ML service down"))
             Samples.lidarDem emptyWorld
  = processJob Samples.healthy Samples.lidarDem emptyWorld.
Proof.
  apply lidar_without_classification_skips_ml; try reflexivity;
    intros H; apply list_elem_of_singleton in H; discriminate H.
Defined.

Lemma fusion_is_a_placeholder_witness :
  (processJob Samples.healthy
     (fusionMultimodalData "job-f" "anonymous" ["a"; "b"]) emptyWorld).1
  = Ok (mkProcessingResult "job-f" "multimodal" []).
Proof.
  destruct (fusion_is_a_placeholder Samples.healthy
              (fusionMultimodalData "job-f" "anonymous" ["a"; "b"]) emptyWorld)
    as [H _].
  - reflexivity.
  - apply H; reflexivity.
Defined.

Lemma lidar_ingestion_touches_nothing_witness :
  uploads (processJob Samples.sinkDown
             (mkJobData "job-g" "anonymous" "lidar" "ingest" "raw/t.las" None [] None)
             emptyWorld).2 = [].
Proof.
  destruct (lidar_ingestion_touches_nothing Samples.sinkDown
              (mkJobData "job-g" "anonymous" "lidar" "ingest" "raw/t.las" None [] None)
              emptyWorld) as (_ & _ & H & _); [reflexivity..|exact H].
Defined.

Lemma lidar_cleans_up_on_every_path_witness :
  "/tmp/geoagent/job-lidar.las"
  ∉ tempFiles (handleLiDARProcessing Samples.sinkDown Samples.lidarDem emptyWorld).2.
Proof.
  apply (lidar_cleans_up_on_every_path Samples.sinkDown Samples.lidarDem emptyWorld).
  reflexivity.
Defined.

Lemma sink_down_success_is_sinkless_witness :
  jobType (fusionMultimodalData "job-f" "anonymous" ["a"; "b"]) = "fusion" \/
  (jobType (fusionMultimodalData "job-f" "anonymous" ["a"; "b"]) = "lidar" /\
   operation (fusionMultimodalData "job-f" "anonymous" ["a"; "b"]) = "ingest").
Proof.
  apply (sink_down_success_is_sinkless Samples.sinkDown
           "connect ECONNREFUSED nexus-graphrag:8090"
           (fun _ => eq_refl) _ emptyWorld).
  reflexivity.
Defined.
